(** * COCO JSON to YOLO segmentation converter and splitter

    A shallow embedding of the two notebooks of the repository:

    - the converter with train/valid/test splitting
      ([create_directory_structure], [split_dataset], [coco_to_yolo]),
      embedded in module [Splitter];
    - the basic converter of [coco2yolo-seg.ipynb] ([coco_to_yolo] with a
      single output directory), embedded in module [Converter].

    Conventions of the embedding.

    - Python numbers are exact rationals kept in lowest terms ([Q] with
      [Qred] after every operation); rounding of binary floating point is
      not modelled.  [/] raises [ZeroDivisionError] on a zero divisor.
    - Python exceptions are values of [exn]; a computation that may raise
      returns a [result].
    - One call of [label_file.write] with a formatted line is one
      [label_line]: the class index and the numbers that follow it.
    - A path below [output_dir] is the list of components handed to
      [os.path.join] after [output_dir]; a source image is named by its
      [file_name] below [image_dir].
    - [print] and [tqdm] have no effect on control flow and are left out. *)

From Stdlib Require Import QArith Qround ZArith Lia Ascii.
From stdpp Require Import gmap strings list fin_maps.

Local Open Scope Z_scope.

(** ** Exceptions and results *)

Inductive exn : Set :=
  | KeyError
  | IndexError
  | ValueError
  | ZeroDivisionError.

Inductive result (A : Type) : Type :=
  | Ok (a : A)
  | Raise (e : exn).
Arguments Ok {A} a.
Arguments Raise {A} e.

Definition is_ok {A} (r : result A) : bool :=
  match r with Ok _ => true | Raise _ => false end.

#[global] Instance result_ret : MRet result := fun _ a => Ok a.
#[global] Instance result_bind : MBind result := fun _ _ f r =>
  match r with
  | Ok a => f a
  | Raise e => Raise e
  end.

(** [d[k]] on a dict: [KeyError] when the key is absent. *)
Definition getitem `{Countable K} {V} (d : gmap K V) (k : K) : result V :=
  match d !! k with
  | Some v => Ok v
  | None => Raise KeyError
  end.

(** ** Numbers *)

Definition qadd (x y : Q) : Q := Qred (x + y).
Definition qmul (x y : Q) : Q := Qred (x * y).

(** [x / y] of Python on numbers. *)
Definition truediv (x y : Q) : result Q :=
  if Qeq_bool y 0 then Raise ZeroDivisionError else Ok (Qred (x / y)).

(** [int(x)]: truncation toward zero. *)
Definition py_int (x : Q) : Z := Z.quot (Qnum x) (Zpos (Qden x)).

(** ** Data model: the parsed COCO document *)

Record Category := mkCategory {
  cat_id : Z;
  name : string
}.

Record Image := mkImage {
  img_id : Z;
  file_name : string;
  width : Z;
  height : Z
}.

(** [bbox], [segmentation] and [iscrowd] are optional keys of the
    annotation object; a segmentation is a list of polygons, each a flat
    list of numbers. *)
Record Annotation := mkAnnotation {
  ann_id : Z;
  image_id : Z;
  category_id : Z;
  bbox : option (list Q);
  segmentation : option (list (list Q));
  iscrowd : option Z
}.

Record CocoData := mkCocoData {
  categories : list Category;
  images : list Image;
  annotations : list Annotation
}.

(** ** Label files *)

Record label_line := LabelLine {
  class_index : nat;
  coords : list Q
}.

(** Writing to an open label file: the lines written so far, and how the
    code that writes ended. Lines written before an exception stay in the
    file. *)
Definition emit (A : Type) : Type := list label_line * result A.

#[global] Instance emit_ret : MRet emit := fun _ a => ([], Ok a).
#[global] Instance emit_bind : MBind emit := fun _ _ f m =>
  match m with
  | (ls, Ok a) => let '(ls', r) := f a in (ls ++ ls', r)
  | (ls, Raise e) => (ls, Raise e)
  end.

Definition write (l : label_line) : emit unit := ([l], Ok tt).
Definition lift {A} (r : result A) : emit A := ([], r).

(** ** Geometry shared by the two notebooks *)

(** [ann['segmentation']] is present and truthy. *)
Definition has_segmentation (ann : Annotation) : bool :=
  match segmentation ann with
  | Some (_ :: _) => true
  | _ => false
  end.

(** [ann.get('iscrowd', 0) == 0] *)
Definition not_crowd (ann : Annotation) : bool :=
  Z.eqb (default 0 (iscrowd ann)) 0.

(** The loop [for i in range(0, len(seg), 2)]:
    [x = seg[i] / image_width; y = seg[i+1] / image_height;
     coords.extend([x, y])].  A polygon of odd length runs into
    [seg[i+1]] out of range. *)
Fixpoint normalize_polygon (image_width image_height : Z) (seg : list Q)
  : result (list Q) :=
  match seg with
  | [] => Ok []
  | sx :: rest =>
      x ← truediv sx (inject_Z image_width);
      match rest with
      | [] => Raise IndexError
      | sy :: rest' =>
          y ← truediv sy (inject_Z image_height);
          cs ← normalize_polygon image_width image_height rest';
          Ok (x :: y :: cs)
      end
  end.

(** [x_min, y_min, width, height = ann['bbox']] *)
Definition unpack4 (b : list Q) : result (Q * Q * Q * Q) :=
  match b with
  | [x_min; y_min; w; h] => Ok (x_min, y_min, w, h)
  | _ => Raise ValueError
  end.

(** The bbox branch: YOLO centre format. The division by two cannot fail. *)
Definition bbox_line (class_index : nat) (image_width image_height : Z)
    (b : list Q) : result label_line :=
  '(x_min, y_min, w, h) ← unpack4 b;
  x_center ← truediv (qadd x_min (Qred (w / 2))) (inject_Z image_width);
  y_center ← truediv (qadd y_min (Qred (h / 2))) (inject_Z image_height);
  w' ← truediv w (inject_Z image_width);
  h' ← truediv h (inject_Z image_height);
  Ok (LabelLine class_index [x_center; y_center; w'; h']).


(** ** The lookup tables built from the document *)

(** [enumerate(l)] *)
Definition enumerate {A} (l : list A) : list (nat * A) :=
  zip (seq 0 (length l)) l.

(** [{cat['id']: idx for idx, cat in enumerate(categories)}]: a later
    entry with the same key replaces the earlier one. *)
Definition build_category_id_to_index (categories : list Category)
  : gmap Z nat :=
  foldl (fun d '(idx, cat) => <[cat_id cat := idx]> d) ∅
        (enumerate categories).

(** [{cat['id']: cat['name'] for cat in categories}] *)
Definition build_category_id_to_name (categories : list Category)
  : gmap Z string :=
  foldl (fun d cat => <[cat_id cat := name cat]> d) ∅ categories.

(** [{img['id']: img for img in images}] *)
Definition build_image_id_to_info (images : list Image) : gmap Z Image :=
  foldl (fun d img => <[img_id img := img]> d) ∅ images.

(** [image_to_annotations]: a dict whose key order is used later by
    [list(image_to_annotations.keys())] and [.items()], hence an
    association list in insertion order with distinct keys. *)
Fixpoint group_append (k : Z) (ann : Annotation)
    (d : list (Z * list Annotation)) : list (Z * list Annotation) :=
  match d with
  | [] => [(k, [ann])]
  | (k', anns) :: d' =>
      if decide (k' = k) then (k', anns ++ [ann]) :: d'
      else (k', anns) :: group_append k ann d'
  end.

Definition group_annotations (annotations : list Annotation)
  : list (Z * list Annotation) :=
  foldl (fun d ann => group_append (image_id ann) ann d) [] annotations.

(** [d[k]] on the ordered dict. *)
Fixpoint getitem_assoc {V} (d : list (Z * V)) (k : Z) : result V :=
  match d with
  | [] => Raise KeyError
  | (k', v) :: d' => if decide (k' = k) then Ok v else getitem_assoc d' k
  end.

(** ** The random generator of module [random]

    The Mersenne Twister itself is outside the repository: the embedding
    takes any generator that seeds deterministically and whose
    [_randbelow(n)] answers below [n]. *)
Class Generator := {
  gen_state : Type;
  seed_state : Z -> gen_state;
  randbelow : nat -> gen_state -> nat * gen_state;
  randbelow_lt : forall n g, (0 < n)%nat -> (fst (randbelow n g) < n)%nat
}.

(** [x[i], x[j] = x[j], x[i]] *)
Definition swap {A} (x : list A) (i j : nat) : list A :=
  match x !! i, x !! j with
  | Some xi, Some xj => <[j := xi]> (<[i := xj]> x)
  | _, _ => x
  end.

(** [random.shuffle(x)]:
    [for i in reversed(range(1, len(x))): j = randbelow(i + 1); swap]. *)
Fixpoint shuffle_from `{Generator} {A} (i : nat) (x : list A) (g : gen_state)
  : list A * gen_state :=
  match i with
  | O => (x, g)
  | S i' =>
      let '(j, g') := randbelow (S i) g in
      shuffle_from i' (swap x i j) g'
  end.

Definition shuffle_list `{Generator} {A} (x : list A) (g : gen_state)
  : list A * gen_state :=
  shuffle_from (length x - 1)%nat x g.

(** ** Python slices *)

(** Where an index of a slice lands in a list of length [n]. *)
Definition slice_bound (n : nat) (k : Z) : nat :=
  if k <? 0 then Z.to_nat (Z.max 0 (Z.of_nat n + k))
  else Z.to_nat (Z.min k (Z.of_nat n)).

(** [l[lo:hi]], either bound possibly omitted. *)
Definition py_slice {A} (l : list A) (lo hi : option Z) : list A :=
  let n := length l in
  let a := from_option (slice_bound n) 0%nat lo in
  let b := from_option (slice_bound n) n hi in
  take (b - a)%nat (drop a l).

(** ** The world a run acts on *)

Inductive manifest_entry :=
  | PathEntry (key path : string)
  | NcEntry (nc : nat)
  | NamesEntry (names : list string).

Inductive file :=
  | ImageFile (source : string)
  | LabelFile (lines : list label_line)
  | ManifestFile (entries : list manifest_entry).

(** The key before the colon of a line of [data.yaml]. *)
Definition entry_key (e : manifest_entry) : string :=
  match e with
  | PathEntry k _ => k
  | NcEntry _ => "nc"
  | NamesEntry _ => "names"
  end.

Record World `{Generator} := mkWorld {
  rng : gen_state;                  (* the generator shared through [random] *)
  heap : gmap nat (list Z);         (* list objects holding image ids *)
  src_images : gset string;         (* files present below the source directory *)
  dirs : gset (list string);        (* directories below [output_dir] *)
  files : gmap (list string) file   (* files below [output_dir] *)
}.

Definition set_rng `{Generator} (g : gen_state) (w : World) : World :=
  mkWorld _ g (heap w) (src_images w) (dirs w) (files w).
Definition set_heap `{Generator} (h : gmap nat (list Z)) (w : World) : World :=
  mkWorld _ (rng w) h (src_images w) (dirs w) (files w).
Definition set_dirs `{Generator} (d : gset (list string)) (w : World) : World :=
  mkWorld _ (rng w) (heap w) (src_images w) d (files w).
Definition set_files `{Generator} (f : gmap (list string) file) (w : World)
  : World :=
  mkWorld _ (rng w) (heap w) (src_images w) (dirs w) f.

(** State and exceptions: the world reached is kept when an exception
    escapes. *)
Definition M `{Generator} (A : Type) : Type := World -> World * result A.

#[global] Instance M_ret `{Generator} : MRet M := fun _ a w => (w, Ok a).
#[global] Instance M_bind `{Generator} : MBind M := fun _ _ f m w =>
  match m w with
  | (w', Ok a) => f a w'
  | (w', Raise e) => (w', Raise e)
  end.

Definition get_world `{Generator} : M World := fun w => (w, Ok w).
Definition modify `{Generator} (f : World -> World) : M unit :=
  fun w => (f w, Ok tt).
Definition liftR `{Generator} {A} (r : result A) : M A := fun w => (w, r).

(** *** Lists on the heap *)

Definition alloc `{Generator} (l : list Z) : M nat := fun w =>
  let r := fresh (dom (heap w)) in
  (set_heap (<[r := l]> (heap w)) w, Ok r).
Definition load `{Generator} (r : nat) : M (list Z) := fun w =>
  (w, Ok (default [] (heap w !! r))).
Definition store `{Generator} (r : nat) (l : list Z) : M unit :=
  modify (fun w => set_heap (<[r := l]> (heap w)) w).

(** [random.seed(seed)] *)
Definition random_seed `{Generator} (seed : Z) : M unit :=
  modify (set_rng (seed_state seed)).

(** [random.shuffle(x)] for the list object [x], in place. *)
Definition random_shuffle `{Generator} (x : nat) : M unit :=
  l ← load x;
  w ← get_world;
  let '(l', g') := shuffle_list l (rng w) in
  store x l';;
  modify (set_rng g').

(** *** The file system *)

(** The ancestors of a path and the path itself. *)
Fixpoint prefixes {A} (p : list A) : list (list A) :=
  [] :: match p with
        | [] => []
        | a :: p' => map (cons a) (prefixes p')
        end.

(** [os.makedirs(path, exist_ok=True)] *)
Definition makedirs `{Generator} (p : list string) : M unit :=
  modify (fun w => set_dirs (dirs w ∪ list_to_set (prefixes p)) w).

(** [os.path.exists] below [output_dir] *)
Definition path_exists `{Generator} (p : list string) : M bool := fun w =>
  (w, Ok (bool_decide (p ∈ dirs w) || bool_decide (is_Some (files w !! p)))).

(** [os.path.exists] of a source image *)
Definition src_exists `{Generator} (file_name : string) : M bool := fun w =>
  (w, Ok (bool_decide (file_name ∈ src_images w))).

(** [shutil.copy2] and [os.link] of a source image to a path of the
    output: the file there is that image. *)
Definition copy_image `{Generator} (file_name : string) (dst : list string)
  : M unit :=
  modify (fun w => set_files (<[dst := ImageFile file_name]> (files w)) w).

(** [with open(path, 'w') as f: body]: the file is created or truncated,
    receives what [body] writes, and an exception of [body] escapes. *)
Definition with_label_file `{Generator} (p : list string) (body : emit unit)
  : M unit :=
  modify (fun w => set_files (<[p := LabelFile body.1]> (files w)) w);;
  liftR body.2.

Definition write_file `{Generator} (p : list string) (f : file) : M unit :=
  modify (fun w => set_files (<[p := f]> (files w)) w).

(** [os.path.splitext(p)[0]] (the POSIX version): cut at the last dot
    of the last component, unless only dots precede it there. *)
Fixpoint rfind_from (c : ascii) (l : list ascii) (i last : Z) : Z :=
  match l with
  | [] => last
  | a :: l' => rfind_from c l' (i + 1) (if Ascii.eqb a c then i else last)
  end.

Definition rfind (c : ascii) (l : list ascii) : Z := rfind_from c l 0 (-1).

Definition splitext_root (p : string) : string :=
  let l := String.list_ascii_of_string p in
  let sepIndex := rfind "/"%char l in
  let dotIndex := rfind "."%char l in
  if (sepIndex <? dotIndex)
     && existsb (fun a => negb (Ascii.eqb a "."%char))
                (py_slice l (Some (sepIndex + 1)) (Some dotIndex))
  then String.string_of_list_ascii (take (Z.to_nat dotIndex) l)
  else p.

Definition label_name (image_file_name : string) : string :=
  (splitext_root image_file_name +:+ ".txt")%string.


(** What a run reports at its end: the groups and the two lists kept
    while the images are processed. *)
Record Summary := mkSummary {
  train_ids : list Z;
  val_ids : list Z;
  test_ids : list Z;
  copied_images : list string;
  missing_images : list string
}.

(** ** The splitting converter *)

Module Splitter.

(** [for seg in ann['segmentation']]: the coordinate list is reset and the
    line is written inside the loop, once per polygon. *)
Fixpoint write_segmentation (class_index : nat) (image_width image_height : Z)
    (segs : list (list Q)) : emit unit :=
  match segs with
  | [] => mret tt
  | seg :: rest =>
      cs ← lift (normalize_polygon image_width image_height seg);
      write (LabelLine class_index cs);;
      write_segmentation class_index image_width image_height rest
  end.

(** The body of [for ann in image_to_annotations[image_id]]. *)
Definition write_annotation (category_id_to_index : gmap Z nat)
    (image_width image_height : Z) (ann : Annotation) : emit unit :=
  class_index ← lift (getitem category_id_to_index (category_id ann));
  if has_segmentation ann && not_crowd ann then
    write_segmentation class_index image_width image_height
      (default [] (segmentation ann))
  else
    match bbox ann with
    | Some b =>
        l ← lift (bbox_line class_index image_width image_height b);
        write l
    | None => mret tt
    end.

Fixpoint write_annotations (category_id_to_index : gmap Z nat)
    (image_width image_height : Z) (anns : list Annotation) : emit unit :=
  match anns with
  | [] => mret tt
  | ann :: rest =>
      write_annotation category_id_to_index image_width image_height ann;;
      write_annotations category_id_to_index image_width image_height rest
  end.

Section run.
Context `{Generator}.

(** [create_directory_structure(base_dir)] *)
Definition create_directory_structure : M unit :=
  foldr (fun split k =>
           foldr (fun subdir k' => makedirs [split; subdir];; k') k
                 ["images"; "labels"])
        (mret tt) ["train"; "valid"; "test"].

(** [split_dataset(image_ids, train_ratio, val_ratio, test_ratio)];
    [image_ids] is the list object passed by the caller. *)
Definition split_dataset (image_ids : nat) (train_ratio val_ratio test_ratio : Q)
  : M (list Z * list Z * list Z) :=
  let s := qadd (qadd train_ratio val_ratio) test_ratio in
  if negb (Qle_bool 0.999 s && Qle_bool s 1.001) then liftR (Raise ValueError)
  else
    ids ← load image_ids;
    shuffled_ids ← alloc ids;
    random_shuffle shuffled_ids;;
    shuffled ← load shuffled_ids;
    let total := inject_Z (Z.of_nat (length shuffled)) in
    let train_end := py_int (qmul total train_ratio) in
    let val_end := py_int (qmul total (qadd train_ratio val_ratio)) in
    let train_ids := py_slice shuffled None (Some train_end) in
    let val_ids := py_slice shuffled (Some train_end) (Some val_end) in
    let test_ids :=
      if Qlt_le_dec 0 test_ratio then py_slice shuffled (Some val_end) None
      else [] in
    mret (train_ids, val_ids, test_ids).

Section tables.
Variable category_id_to_index : gmap Z nat.
Variable image_id_to_info : gmap Z Image.
Variable image_to_annotations : list (Z * list Annotation).

(** The body of [for image_id in split_ids]; the two accumulators are
    [missing_images] and [copied_images]. *)
Definition process_image (split_name : string) (image_id : Z)
    (acc : list string * list string) : M (list string * list string) :=
  let '(missing_images, copied_images) := acc in
  image_info ← liftR (getitem image_id_to_info image_id);
  let image_width := width image_info in
  let image_height := height image_info in
  let image_file_name := file_name image_info in
  let label_file_name := label_name image_file_name in
  let dst_image_path := [split_name; "images"; image_file_name] in
  let label_file_path := [split_name; "labels"; label_file_name] in
  src_ok ← src_exists image_file_name;
  if (src_ok : bool) then
    dst_ok ← path_exists dst_image_path;
    copied_images' ←
      (if (dst_ok : bool) then mret copied_images
       else copy_image image_file_name dst_image_path;;
            mret (copied_images ++ [image_file_name]));
    with_label_file label_file_path
      (anns ← lift (getitem_assoc image_to_annotations image_id);
       write_annotations category_id_to_index image_width image_height anns);;
    mret (missing_images, copied_images')
  else
    mret (missing_images ++ [image_file_name], copied_images).

Fixpoint process_split (split_name : string) (split_ids : list Z)
    (acc : list string * list string) : M (list string * list string) :=
  match split_ids with
  | [] => mret acc
  | image_id :: rest =>
      acc' ← process_image split_name image_id acc;
      process_split split_name rest acc'
  end.

(** [for split_name, split_ids in splits.items()], empty groups skipped. *)
Fixpoint process_splits (splits : list (string * list Z))
    (acc : list string * list string) : M (list string * list string) :=
  match splits with
  | [] => mret acc
  | (split_name, split_ids) :: rest =>
      acc' ← (match split_ids with
              | [] => mret acc
              | _ => process_split split_name split_ids acc
              end);
      process_splits rest acc'
  end.

End tables.

(** The lines of [data.yaml]. *)
Definition data_yaml (categories : list Category) (test_ratio : Q) : file :=
  ManifestFile
    ([PathEntry "train" "./train/images"; PathEntry "val" "./valid/images"]
     ++ (if Qlt_le_dec 0 test_ratio then [PathEntry "test" "./test/images"]
         else [])
     ++ [NcEntry (length categories); NamesEntry (map name categories)]).

(** [coco_to_yolo(coco_json_path, image_dir, output_dir, train_ratio,
    val_ratio, test_ratio, seed)], from the parsed document on. *)
Definition coco_to_yolo (coco_data : CocoData)
    (train_ratio val_ratio test_ratio : Q) (seed : Z) : M Summary :=
  random_seed seed;;
  let category_id_to_index :=
    build_category_id_to_index (categories coco_data) in
  let image_id_to_info := build_image_id_to_info (images coco_data) in
  let image_to_annotations := group_annotations (annotations coco_data) in
  create_directory_structure;;
  all_image_ids ← alloc (map fst image_to_annotations);
  '(train_ids, val_ids, test_ids) ←
    split_dataset all_image_ids train_ratio val_ratio test_ratio;
  let splits :=
    [("train", train_ids); ("valid", val_ids); ("test", test_ids)] in
  '(missing_images, copied_images) ←
    process_splits category_id_to_index image_id_to_info image_to_annotations
      splits ([], []);
  write_file ["data.yaml"] (data_yaml (categories coco_data) test_ratio);;
  mret (mkSummary train_ids val_ids test_ids copied_images missing_images).

End run.
End Splitter.

(** ** The basic converter *)

Module Converter.

(** [for seg in segmentation: ... coords.extend(normalized_seg)]: the
    polygons are accumulated into one list. *)
Fixpoint collect_coords (image_width image_height : Z)
    (segs : list (list Q)) : result (list Q) :=
  match segs with
  | [] => Ok []
  | seg :: rest =>
      normalized_seg ← normalize_polygon image_width image_height seg;
      cs ← collect_coords image_width image_height rest;
      Ok (normalized_seg ++ cs)
  end.

(** The body of [for ann in anns]. *)
Definition write_annotation (category_id_to_index : gmap Z nat)
    (image_width image_height : Z) (ann : Annotation) : emit unit :=
  class_index ← lift (getitem category_id_to_index (category_id ann));
  if has_segmentation ann && not_crowd ann then
    cs ← lift (collect_coords image_width image_height
                 (default [] (segmentation ann)));
    write (LabelLine class_index cs)
  else
    match bbox ann with
    | Some b =>
        l ← lift (bbox_line class_index image_width image_height b);
        write l
    | None => mret tt
    end.

Fixpoint write_annotations (category_id_to_index : gmap Z nat)
    (image_width image_height : Z) (anns : list Annotation) : emit unit :=
  match anns with
  | [] => mret tt
  | ann :: rest =>
      write_annotation category_id_to_index image_width image_height ann;;
      write_annotations category_id_to_index image_width image_height rest
  end.

Section run.
Context `{Generator}.
Variable category_id_to_index : gmap Z nat.
Variable image_id_to_info : gmap Z Image.

(** The body of [for image_id, anns in image_to_annotations.items()]:
    a missing source image is reported by a printed warning only. *)
Definition process_image (image_id : Z) (anns : list Annotation) : M unit :=
  image_info ← liftR (getitem image_id_to_info image_id);
  let image_width := width image_info in
  let image_height := height image_info in
  let image_file_name := file_name image_info in
  let label_file_name := label_name image_file_name in
  let dst_image_path := ["images"; image_file_name] in
  src_ok ← src_exists image_file_name;
  (if (src_ok : bool) then
     dst_ok ← path_exists dst_image_path;
     if (dst_ok : bool) then mret tt else copy_image image_file_name dst_image_path
   else mret tt);;
  let label_file_path := ["labels"; label_file_name] in
  with_label_file label_file_path
    (write_annotations category_id_to_index image_width image_height anns).

Fixpoint process_images (items : list (Z * list Annotation)) : M unit :=
  match items with
  | [] => mret tt
  | (image_id, anns) :: rest =>
      process_image image_id anns;;
      process_images rest
  end.

End run.

Definition data_yaml (categories : list Category) : file :=
  ManifestFile
    [PathEntry "train" "./train/images"; PathEntry "val" "./valid/images";
     PathEntry "test" "./test/images";
     NcEntry (length categories); NamesEntry (map name categories)].

(** [coco_to_yolo(coco_json_path, output_dir)], from the parsed document
    on. *)
Definition coco_to_yolo `{Generator} (coco_data : CocoData) : M unit :=
  let category_id_to_index :=
    build_category_id_to_index (categories coco_data) in
  let image_id_to_info := build_image_id_to_info (images coco_data) in
  makedirs ["labels"];;
  makedirs ["images"];;
  let image_to_annotations := group_annotations (annotations coco_data) in
  process_images category_id_to_index image_id_to_info image_to_annotations;;
  write_file ["data.yaml"] (data_yaml (categories coco_data)).

End Converter.

(** ** What the specification calls the normalized coordinate sequence *)

(** The pairs [(x/width, y/height)] of one polygon, flattened. *)
Fixpoint scale_pairs (w h : Z) (seg : list Q) : list Q :=
  match seg with
  | x :: y :: rest =>
      Qred (x / inject_Z w) :: Qred (y / inject_Z h) :: scale_pairs w h rest
  | _ => []
  end.

(** ** A concrete generator for worked examples

    A linear congruential generator; [randbelow n] reduces the state
    modulo [n]. *)
Definition lcg_next (g : Z) : Z := (1103515245 * g + 12345) mod 2147483648.

#[global, refine] Instance lcg : Generator := {|
  gen_state := Z;
  seed_state := fun seed => seed;
  randbelow := fun n g => (Z.to_nat (g mod Z.of_nat n), lcg_next g);
  randbelow_lt := _
|}.
Proof.
  intros n g Hn. cbn. pose proof (Z.mod_pos_bound g (Z.of_nat n)). lia.
Defined.

Definition empty_world (g : Z) (src : list string) : World :=
  mkWorld lcg g ∅ (list_to_set src) ∅ ∅.

(** Worked inputs. *)

(** A world whose only list object, at address 0, holds [ids]. *)
Definition world_with_ids (g : Z) (ids : list Z) : World :=
  mkWorld lcg g {[ 0%nat := ids ]} ∅ ∅ ∅.

(** One instance made of two polygons, on a 4 by 2 image. *)
Definition two_part_annotation : Annotation :=
  mkAnnotation 1 1 5 None (Some [[0; 0; 4; 0]; [4; 2; 0; 2]]%Q) None.

(** A crowd annotation that carries a polygon and a box. *)
Definition crowd_annotation : Annotation :=
  mkAnnotation 2 1 5 (Some [0; 0; 4; 2]%Q) (Some [[0; 0; 4; 0; 4; 2]]%Q)
    (Some 1).

(** A box covering a 640 by 480 image. *)
Definition full_box_annotation : Annotation :=
  mkAnnotation 3 1 5 (Some [0; 0; 640; 480]%Q) None None.

(** The YOLO centre format of a pixel box, as the specification words it:
    [x_center = (x_min + w/2)/width], [y_center = (y_min + h/2)/height],
    [w_norm = w/width], [h_norm = h/height]. *)
Definition yolo_box (image_width image_height : Z) (x_min y_min w h : Q)
  : list Q :=
  [Qred ((x_min + w / 2) / inject_Z image_width);
   Qred ((y_min + h / 2) / inject_Z image_height);
   Qred (w / inject_Z image_width);
   Qred (h / inject_Z image_height)].

(** A polygon is a sequence of [x, y] pairs. *)
Definition even_length (seg : list Q) : Prop :=
  exists n, length seg = (2 * n)%nat.

(** The groups [split_dataset] cuts from the shuffled list. *)
Definition split_slices (shuffled : list Z) (train_ratio val_ratio test_ratio : Q)
  : list Z * list Z * list Z :=
  let total := inject_Z (Z.of_nat (length shuffled)) in
  let train_end := py_int (qmul total train_ratio) in
  let val_end := py_int (qmul total (qadd train_ratio val_ratio)) in
  (py_slice shuffled None (Some train_end),
   py_slice shuffled (Some train_end) (Some val_end),
   if Qlt_le_dec 0 test_ratio then py_slice shuffled (Some val_end) None
   else []).

(** The test of [split_dataset] on the sum of the ratios. *)
Definition ratios_accepted (train_ratio val_ratio test_ratio : Q) : bool :=
  let s := qadd (qadd train_ratio val_ratio) test_ratio in
  Qle_bool 0.999 s && Qle_bool s 1.001.

(** Two worlds that differ at most in the files below the listed first
    components. *)
Definition same_outside `{Generator} (names : list string) (w w' : World)
  : Prop :=
  rng w' = rng w /\ heap w' = heap w /\ src_images w' = src_images w
  /\ dirs w' = dirs w
  /\ forall p, (forall s, s ∈ names -> head p <> Some s) ->
       files w' !! p = files w !! p.

(** What the splitting converter writes to the label file of an image. *)
Definition label_body (idx : gmap Z nat) (groups : list (Z * list Annotation))
    (id : Z) (im : Image) : emit unit :=
  anns ← lift (getitem_assoc groups id);
  Splitter.write_annotations idx (width im) (height im) anns.

(** The names of the groups that are processed. *)
Definition processed_names (splits : list (string * list Z)) : list string :=
  (filter (fun sp => sp.2 <> []) splits).*1.

(** An image id at which processing stops with an exception: it has no
    entry in the image table, or its source file is there and writing its
    label raises. *)
Definition stops_at (idx : gmap Z nat) (info : gmap Z Image)
    (groups : list (Z * list Annotation)) (src : gset string) (id : Z)
  : Prop :=
  match info !! id with
  | None => True
  | Some im =>
      file_name im ∈ src /\ exists e, (label_body idx groups id im).2 = Raise e
  end.

(** The annotation with its [segmentation] key removed. *)
Definition without_segmentation (ann : Annotation) : Annotation :=
  mkAnnotation (ann_id ann) (image_id ann) (category_id ann) (bbox ann)
    None (iscrowd ann).

(** The annotation with its [bbox] key removed. *)
Definition without_bbox (ann : Annotation) : Annotation :=
  mkAnnotation (ann_id ann) (image_id ann) (category_id ann) None
    (segmentation ann) (iscrowd ann).

(** The annotations of one image, in document order. *)
Definition annotations_of (k : Z) (anns : list Annotation) : list Annotation :=
  filter (fun a => image_id a = k) anns.

(** The file names a split loop adds to [missing_images]: those of the
    ids whose source file is not in [src], in the order of the ids. *)
Definition missing_names (info : gmap Z Image) (src : gset string)
    (ids : list Z) : list string :=
  omap (fun id =>
          match info !! id with
          | Some im =>
              if decide (file_name im ∈ src) then None
              else Some (file_name im)
          | None => None
          end) ids.

(** A file name that is a single path component: not empty, not [.] or
    [..], and without a path separator or a drive colon. *)
Definition plain_name (s : string) : Prop :=
  s <> "" /\ s <> "." /\ s <> ".."
  /\ Forall (fun c => c <> "/"%char /\ c <> "\"%char /\ c <> ":"%char)
       (String.list_ascii_of_string s).

(** An annotation whose geometry cannot raise on an image of non-zero
    size: its polygons are sequences of pairs and its box has four
    numbers. *)
Definition well_formed_annotation (ann : Annotation) : Prop :=
  (forall segs, segmentation ann = Some segs -> Forall even_length segs)
  /\ (forall b, bbox ann = Some b -> length b = 4%nat).

(** A document whose images have non-zero width and height and whose
    annotations are well formed. *)
Definition well_formed_document (data : CocoData) : Prop :=
  Forall (fun im => width im <> 0 /\ height im <> 0) (images data)
  /\ Forall well_formed_annotation (annotations data).

(** An annotation of image 9, which the document does not list. *)
Definition dangling_image_doc : CocoData :=
  mkCocoData [mkCategory 5 "car"] []
    [mkAnnotation 1 9 5 (Some [0; 0; 4; 2]%Q) None None].

(** An annotation of category 7, which the document does not list, on an
    image whose file is not in the source directory. *)
Definition dangling_category_doc : CocoData :=
  mkCocoData [mkCategory 5 "car"] [mkImage 1 "a.jpg" 4 2]
    [mkAnnotation 1 1 7 (Some [0; 0; 4; 2]%Q) None None].

(** Two annotated images with one box each. *)
Definition two_images_doc : CocoData :=
  mkCocoData [mkCategory 5 "car"] [mkImage 1 "a.jpg" 4 2; mkImage 2 "b.jpg" 4 2]
    [mkAnnotation 1 1 5 (Some [0; 0; 4; 2]%Q) None None;
     mkAnnotation 2 2 5 (Some [0; 0; 2; 2]%Q) None None].

(** * Properties *)

(** ** Proof steps used throughout *)

(** Membership in a list that is written out. *)
Ltac list_mem :=
  repeat first [apply list_elem_of_here | apply list_elem_of_further].

Ltac unfold_M :=
  unfold mbind, M_bind, mret, M_ret, liftR, src_exists, path_exists,
    copy_image, with_label_file, write_file, makedirs, modify, get_world;
  cbn [rng heap src_images dirs files set_rng set_heap set_dirs set_files
       fst snd].

(** ** Arithmetic of the embedding *)

#[local] Arguments truediv : simpl never.

Lemma truediv_nonzero (x : Q) (d : Z) :
  d <> 0 -> truediv x (inject_Z d) = Ok (Qred (x / inject_Z d)).
Proof.
  intros Hd. unfold truediv.
  destruct (Qeq_bool (inject_Z d) 0) eqn:E; [|reflexivity].
  apply Qeq_bool_eq in E. unfold Qeq, inject_Z in E. simpl in E. lia.
Qed.

(** ** Geometry *)

Lemma normalize_polygon_pairs (w h : Z) (n : nat) :
  w <> 0 -> h <> 0 ->
  forall seg, length seg = (2 * n)%nat ->
  normalize_polygon w h seg = Ok (scale_pairs w h seg).
Proof.
  intros Hw Hh. induction n as [|n IH]; intros seg Hlen.
  - destruct seg; [reflexivity | discriminate].
  - destruct seg as [|x [|y rest]]; simpl in Hlen; try lia.
    cbn [normalize_polygon scale_pairs].
    rewrite (truediv_nonzero x w Hw), (truediv_nonzero y h Hh).
    rewrite IH by lia. reflexivity.
Qed.

Lemma normalize_polygon_even (w h : Z) (seg : list Q) :
  w <> 0 -> h <> 0 -> even_length seg ->
  normalize_polygon w h seg = Ok (scale_pairs w h seg).
Proof. intros Hw Hh [n Hn]. eauto using normalize_polygon_pairs. Qed.

(** The basic converter writes one line per annotation: the pairs of all
    polygons, concatenated. *)
Lemma converter_collect_coords (w h : Z) (segs : list (list Q)) :
  w <> 0 -> h <> 0 -> Forall even_length segs ->
  Converter.collect_coords w h segs
  = Ok (concat (map (scale_pairs w h) segs)).
Proof.
  intros Hw Hh Hall. induction Hall as [|seg segs Hseg _ IH]; [reflexivity|].
  cbn [Converter.collect_coords]. rewrite normalize_polygon_even by assumption.
  cbn. rewrite IH. reflexivity.
Qed.

Lemma converter_segmentation_one_line (idx : gmap Z nat) (w h : Z)
    (ann : Annotation) (c : nat) (segs : list (list Q)) :
  w <> 0 -> h <> 0 ->
  idx !! category_id ann = Some c ->
  segmentation ann = Some segs -> segs <> [] ->
  Forall even_length segs ->
  not_crowd ann = true ->
  Converter.write_annotation idx w h ann
  = ([LabelLine c (concat (map (scale_pairs w h) segs))], Ok tt).
Proof.
  intros Hw Hh Hc Hs Hne Hall Hcrowd.
  unfold Converter.write_annotation, getitem, has_segmentation.
  rewrite Hc, Hs, Hcrowd. destruct segs as [|s segs']; [done|].
  cbn -[Converter.collect_coords].
  rewrite converter_collect_coords by assumption. reflexivity.
Qed.

(** The splitting converter writes one line per polygon. *)
Lemma splitter_write_segmentation (c : nat) (w h : Z) (segs : list (list Q)) :
  w <> 0 -> h <> 0 -> Forall even_length segs ->
  Splitter.write_segmentation c w h segs
  = (map (fun seg => LabelLine c (scale_pairs w h seg)) segs, Ok tt).
Proof.
  intros Hw Hh Hall. induction Hall as [|seg segs Hseg _ IH]; [reflexivity|].
  cbn [Splitter.write_segmentation]. rewrite normalize_polygon_even by assumption.
  cbn. rewrite IH. reflexivity.
Qed.

Lemma splitter_segmentation_lines (idx : gmap Z nat) (w h : Z)
    (ann : Annotation) (c : nat) (segs : list (list Q)) :
  w <> 0 -> h <> 0 ->
  idx !! category_id ann = Some c ->
  segmentation ann = Some segs -> segs <> [] ->
  Forall even_length segs ->
  not_crowd ann = true ->
  Splitter.write_annotation idx w h ann
  = (map (fun seg => LabelLine c (scale_pairs w h seg)) segs, Ok tt).
Proof.
  intros Hw Hh Hc Hs Hne Hall Hcrowd.
  unfold Splitter.write_annotation, getitem, has_segmentation.
  rewrite Hc, Hs, Hcrowd. destruct segs as [|s segs']; [done|].
  cbn -[Splitter.write_segmentation].
  rewrite splitter_write_segmentation by assumption. reflexivity.
Qed.

(** C1 (splitting converter, an instance of two polygons): the claim asks
    for exactly one line holding the pairs of both polygons, as the basic
    converter writes it; the splitting converter writes two lines, one per
    polygon, each starting with the class index. *)
Theorem splitter_two_polygons_two_lines :
  Splitter.write_annotation {[ 5 := 0%nat ]} 4 2 two_part_annotation
  = ([LabelLine 0 [0; 0; 1; 0]%Q; LabelLine 0 [1; 1; 0; 1]%Q], Ok tt)
  /\ Converter.write_annotation {[ 5 := 0%nat ]} 4 2 two_part_annotation
     = ([LabelLine 0 [0; 0; 1; 0; 1; 1; 0; 1]%Q], Ok tt).
Proof. split; reflexivity. Qed.

Lemma bbox_line_yolo_box (c : nat) (W H : Z) (x_min y_min w h : Q) :
  W <> 0 -> H <> 0 ->
  bbox_line c W H [x_min; y_min; w; h]
  = Ok (LabelLine c (yolo_box W H x_min y_min w h)).
Proof.
  intros HW HH. unfold bbox_line, unpack4. cbn.
  rewrite !(truediv_nonzero _ W HW), !(truediv_nonzero _ H HH). cbn.
  unfold yolo_box, qadd.
  assert (E : forall a b d : Q,
             Qred (Qred (a + Qred (b / 2)) / d) = Qred ((a + b / 2) / d)).
  { intros a b d. apply Qred_complete. rewrite !Qred_correct. reflexivity. }
  rewrite !E. reflexivity.
Qed.

Lemma yolo_box_full_image (W H : Z) :
  0 < W -> 0 < H ->
  yolo_box W H 0 0 (inject_Z W) (inject_Z H) = [1 # 2; 1 # 2; 1; 1]%Q.
Proof.
  intros HW HH.
  assert (HWq : ~ (inject_Z W == 0)%Q).
  { unfold Qeq, inject_Z; simpl. lia. }
  assert (HHq : ~ (inject_Z H == 0)%Q).
  { unfold Qeq, inject_Z; simpl. lia. }
  assert (Ehalf : forall d : Q, ~ (d == 0)%Q ->
                  Qred ((0 + d / 2) / d) = (1 # 2)%Q).
  { intros d Hd. apply (Qred_complete _ (1 # 2)). field. exact Hd. }
  assert (Eone : forall d : Q, ~ (d == 0)%Q -> Qred (d / d) = 1%Q).
  { intros d Hd. apply (Qred_complete _ 1). field. exact Hd. }
  unfold yolo_box. rewrite !Ehalf, !Eone by assumption. reflexivity.
Qed.

(** C6: an annotation without usable segmentation and with a box
    [x_min, y_min, w, h], on an image of positive width [W] and height
    [H], gives the single line [class_index (x_min + w/2)/W
    (y_min + h/2)/H w/W h/H]; the box [0, 0, W, H] gives
    [class_index 0.5 0.5 1.0 1.0]. *)
Theorem bbox_center_format (idx : gmap Z nat) (W H : Z) (ann : Annotation)
    (c : nat) (x_min y_min w h : Q) :
  0 < W -> 0 < H ->
  idx !! category_id ann = Some c ->
  has_segmentation ann && not_crowd ann = false ->
  bbox ann = Some [x_min; y_min; w; h] ->
  Splitter.write_annotation idx W H ann
  = ([LabelLine c (yolo_box W H x_min y_min w h)], Ok tt)
  /\ (x_min = 0%Q -> y_min = 0%Q -> w = inject_Z W -> h = inject_Z H ->
      Splitter.write_annotation idx W H ann
      = ([LabelLine c [1 # 2; 1 # 2; 1; 1]%Q], Ok tt)).
Proof.
  intros HW HH Hc Hseg Hb.
  assert (Hline : Splitter.write_annotation idx W H ann
                  = ([LabelLine c (yolo_box W H x_min y_min w h)], Ok tt)).
  { unfold Splitter.write_annotation, getitem. rewrite Hc. cbn.
    rewrite Hseg, Hb. rewrite bbox_line_yolo_box by lia. reflexivity. }
  split; [exact Hline|].
  intros -> -> -> ->. rewrite Hline, yolo_box_full_image by assumption.
  reflexivity.
Qed.

Lemma bbox_center_format_witness :
  Splitter.write_annotation {[ 5 := 0%nat ]} 640 480 full_box_annotation
  = ([LabelLine 0 [1 # 2; 1 # 2; 1; 1]%Q], Ok tt).
Proof.
  refine (proj2 (bbox_center_format {[ 5 := 0%nat ]} 640 480
                   full_box_annotation 0%nat 0 0 640 480 _ _ _ _ _) _ _ _ _);
    reflexivity.
Defined.

(** C7: an annotation with [iscrowd = 1] and a non-empty segmentation is
    written exactly as if it had no segmentation, by either converter, so
    no line is made from its polygons; with a box it gets the box line. *)
Theorem crowd_falls_back_to_bbox (idx : gmap Z nat) (W H : Z)
    (ann : Annotation) :
  iscrowd ann = Some 1 ->
  has_segmentation ann = true ->
  Splitter.write_annotation idx W H ann
  = Splitter.write_annotation idx W H (without_segmentation ann)
  /\ Converter.write_annotation idx W H ann
     = Converter.write_annotation idx W H (without_segmentation ann)
  /\ (forall c x_min y_min w h,
        0 < W -> 0 < H ->
        idx !! category_id ann = Some c ->
        bbox ann = Some [x_min; y_min; w; h] ->
        Splitter.write_annotation idx W H ann
        = ([LabelLine c (yolo_box W H x_min y_min w h)], Ok tt)
        /\ Converter.write_annotation idx W H ann
           = ([LabelLine c (yolo_box W H x_min y_min w h)], Ok tt)).
Proof.
  intros Hcrowd Hseg.
  assert (Hnc : not_crowd ann = false) by (unfold not_crowd; rewrite Hcrowd; reflexivity).
  assert (HS : Splitter.write_annotation idx W H ann
               = Splitter.write_annotation idx W H (without_segmentation ann)).
  { unfold Splitter.write_annotation. rewrite Hseg, Hnc. reflexivity. }
  assert (HC : Converter.write_annotation idx W H ann
               = Converter.write_annotation idx W H (without_segmentation ann)).
  { unfold Converter.write_annotation. rewrite Hseg, Hnc. reflexivity. }
  split; [exact HS|]. split; [exact HC|].
  intros c x_min y_min w h HW HH Hc Hb.
  unfold Splitter.write_annotation, Converter.write_annotation, getitem.
  rewrite Hc, Hseg, Hnc, Hb. cbn -[bbox_line].
  rewrite bbox_line_yolo_box by lia. split; reflexivity.
Qed.

Lemma crowd_falls_back_to_bbox_witness :
  Splitter.write_annotation {[ 5 := 0%nat ]} 4 2 crowd_annotation
  = ([LabelLine 0 [1 # 2; 1 # 2; 1; 1]%Q], Ok tt).
Proof.
  refine (proj1 (proj2 (proj2 (crowd_falls_back_to_bbox {[ 5 := 0%nat ]} 4 2
                                 crowd_annotation _ _))
                   0%nat 0%Q 0%Q 4%Q 2%Q _ _ _ _)); reflexivity.
Defined.

(** ** The category index *)

Lemma enumerate_snoc {A} (l : list A) (x : A) :
  enumerate (l ++ [x]) = enumerate l ++ [(length l, x)].
Proof.
  unfold enumerate. rewrite length_app. simpl length.
  rewrite seq_app. simpl seq.
  change [(length l, x)] with (zip [length l] [x]).
  apply (zip_with_app pair). by rewrite length_seq.
Qed.

Lemma build_category_id_to_index_snoc (cats : list Category) (c : Category) :
  build_category_id_to_index (cats ++ [c])
  = <[cat_id c := length cats]> (build_category_id_to_index cats).
Proof.
  unfold build_category_id_to_index.
  rewrite enumerate_snoc, foldl_app. reflexivity.
Qed.

Lemma build_category_id_to_index_lookup (cats : list Category) (i : nat)
    (c : Category) :
  cats !! i = Some c ->
  (forall j c', (i < j)%nat -> cats !! j = Some c' -> cat_id c' <> cat_id c) ->
  build_category_id_to_index cats !! cat_id c = Some i.
Proof.
  revert i c. induction cats as [|x cats IH] using rev_ind; intros i c Hi Hlast.
  - discriminate.
  - rewrite build_category_id_to_index_snoc.
    destruct (decide (i = length cats)) as [->|Hne].
    + rewrite list_lookup_middle in Hi by reflexivity.
      injection Hi as ->. apply lookup_insert_eq.
    + assert (Hlt : (i < length cats)%nat).
      { apply lookup_lt_Some in Hi. rewrite length_app in Hi. simpl in Hi. lia. }
      rewrite lookup_app_l in Hi by assumption.
      rewrite lookup_insert_ne.
      * apply IH; [assumption|].
        intros j c' Hj Hc'. apply (Hlast j c' Hj).
        rewrite lookup_app_l; [assumption|]. by eapply lookup_lt_Some.
      * apply (Hlast (length cats) x Hlt).
        apply list_lookup_middle. reflexivity.
Qed.

(** C4, as the code has it: building the index cannot fail and a later
    category replaces an earlier one with the same id, so every id is
    mapped to the position of the last category that carries it. *)
Theorem category_index_last_wins (cats : list Category) (i : nat)
    (c : Category) :
  cats !! i = Some c ->
  (forall j c', (i < j)%nat -> cats !! j = Some c' -> cat_id c' <> cat_id c) ->
  build_category_id_to_index cats !! cat_id c = Some i.
Proof. apply build_category_id_to_index_lookup. Qed.

Lemma category_index_last_wins_witness :
  build_category_id_to_index [mkCategory 1 "cat"; mkCategory 1 "dog"] !! 1
  = Some 1%nat.
Proof.
  apply (category_index_last_wins
           [mkCategory 1 "cat"; mkCategory 1 "dog"] 1 (mkCategory 1 "dog")).
  - reflexivity.
  - intros [|[|[|j]]] c' Hj Hc'; try lia; discriminate.
Defined.

(** With distinct ids the index is the position in the list. *)
Lemma category_index_distinct (cats : list Category) (i : nat) (c : Category) :
  NoDup (map cat_id cats) ->
  cats !! i = Some c ->
  build_category_id_to_index cats !! cat_id c = Some i.
Proof.
  intros Hnd Hi. apply build_category_id_to_index_lookup; [assumption|].
  intros j c' Hj Hc' Heq.
  assert (i = j); [|lia].
  eapply NoDup_lookup; [exact Hnd | | ].
  - rewrite list_lookup_fmap, Hi. reflexivity.
  - rewrite list_lookup_fmap, Hc'. simpl. by rewrite Heq.
Qed.

(** C4, as the claim has it, fails: two categories with the same id, and
    an empty category list, both give a mapping, and the later category has
    replaced the earlier one. *)
Lemma category_index_duplicate_overwrites :
  ~ NoDup (map cat_id [mkCategory 1 "cat"; mkCategory 1 "dog"])
  /\ build_category_id_to_index [mkCategory 1 "cat"; mkCategory 1 "dog"]
     = {[ 1 := 1%nat ]}
  /\ build_category_id_to_index [] = ∅.
Proof.
  split; [|split; reflexivity].
  intros Hnd. apply NoDup_cons in Hnd as [Hnotin _].
  apply Hnotin. simpl. left.
Qed.

(** ** The shuffle is a permutation *)

Lemma insert_head_perm {A} (l : list A) (j : nat) (a y : A) :
  l !! j = Some y -> y :: <[j := a]> l ≡ₚ a :: l.
Proof.
  revert j. induction l as [|b l IH]; intros [|j] Hj; simplify_eq/=.
  - apply perm_swap.
  - rewrite perm_swap, (IH j Hj). apply perm_swap.
Qed.

Lemma swap_perm {A} (x : list A) (i j : nat) : swap x i j ≡ₚ x.
Proof.
  unfold swap.
  destruct (x !! i) as [xi|] eqn:Hi; [|reflexivity].
  destruct (x !! j) as [xj|] eqn:Hj; [|reflexivity].
  revert i j Hi Hj. induction x as [|a l IH]; intros [|i] [|j] Hi Hj;
    simplify_eq/=.
  - reflexivity.
  - by apply insert_head_perm.
  - by apply insert_head_perm.
  - by rewrite IH.
Qed.

Lemma shuffle_from_perm `{Generator} {A} (i : nat) (x : list A)
    (g : gen_state) :
  (shuffle_from i x g).1 ≡ₚ x.
Proof.
  revert x g. induction i as [|i IH]; intros x g; [reflexivity|].
  cbn [shuffle_from]. destruct (randbelow (S (S i)) g) as [j g'].
  rewrite IH. apply swap_perm.
Qed.

Lemma shuffle_list_perm `{Generator} {A} (x : list A) (g : gen_state) :
  (shuffle_list x g).1 ≡ₚ x.
Proof. apply shuffle_from_perm. Qed.

(** Under the contract of the generator the two positions swapped at step
    [i] exist, so the guard of [swap] never falls through. *)
Lemma shuffle_swap_in_range `{Generator} {A} (i : nat) (x : list A)
    (g : gen_state) :
  (i < length x)%nat ->
  is_Some (x !! i) /\ is_Some (x !! (randbelow (S i) g).1).
Proof.
  intros Hi. split; apply lookup_lt_is_Some; [assumption|].
  pose proof (randbelow_lt (S i) g ltac:(lia)). lia.
Qed.

(** ** Slices *)

Lemma slice_bound_nonneg (n : nat) (k : Z) :
  0 <= k -> slice_bound n k = Nat.min (Z.to_nat k) n.
Proof. intros Hk. unfold slice_bound. destruct (Z.ltb_spec k 0); lia. Qed.

Lemma py_slice_three {A} (l : list A) (a b : Z) :
  0 <= a <= b ->
  py_slice l None (Some a) ++ py_slice l (Some a) (Some b)
  ++ py_slice l (Some b) None = l.
Proof.
  intros Hab. unfold py_slice. cbn [from_option].
  rewrite !slice_bound_nonneg by lia.
  set (n := length l). set (A' := Nat.min (Z.to_nat a) n).
  set (B' := Nat.min (Z.to_nat b) n).
  assert (A' <= B' <= n)%nat by lia.
  rewrite Nat.sub_0_r, drop_0.
  rewrite app_assoc, take_take_drop.
  replace (A' + (B' - A'))%nat with B' by lia.
  rewrite (take_ge (drop B' l)) by (rewrite length_drop; lia).
  apply take_drop.
Qed.

Lemma py_slice_two {A} (l : list A) (a b : Z) :
  0 <= a <= b ->
  py_slice l None (Some a) ++ py_slice l (Some a) (Some b)
  = take (Z.to_nat b) l.
Proof.
  intros Hab. unfold py_slice. cbn [from_option].
  rewrite !slice_bound_nonneg by lia.
  set (n := length l). set (A' := Nat.min (Z.to_nat a) n).
  set (B' := Nat.min (Z.to_nat b) n).
  assert (A' <= B' <= n)%nat by lia.
  rewrite Nat.sub_0_r, drop_0, take_take_drop.
  replace (A' + (B' - A'))%nat with B' by lia.
  subst B' n. destruct (Nat.min_spec (Z.to_nat b) (length l)) as [[_ ->]|[? ->]];
    [reflexivity|]. by rewrite !take_ge by lia.
Qed.

(** ** [int] on non-negative numbers *)

Lemma py_int_floor (q : Q) : (0 <= q)%Q -> py_int q = Qfloor q.
Proof.
  intros Hq. unfold py_int, Qfloor. destruct q as [n d]; simpl.
  unfold Qle in Hq; simpl in Hq. apply Z.quot_div_nonneg; lia.
Qed.

Lemma py_int_mono (p q : Q) : (0 <= p)%Q -> (p <= q)%Q -> 0 <= py_int p <= py_int q.
Proof.
  intros Hp Hpq. assert (Hq : (0 <= q)%Q) by (eapply Qle_trans; eassumption).
  rewrite (py_int_floor p Hp), (py_int_floor q Hq).
  split; [|by apply Qfloor_resp_le].
  change 0 with (Qfloor 0). by apply Qfloor_resp_le.
Qed.

Lemma qmul_nonneg (p q : Q) : (0 <= p)%Q -> (0 <= q)%Q -> (0 <= qmul p q)%Q.
Proof.
  intros Hp Hq. unfold qmul. rewrite Qred_correct. by apply Qmult_le_0_compat.
Qed.

(** ** Running [split_dataset] *)

Lemma ratios_accepted_iff (tr va te : Q) :
  ratios_accepted tr va te = true
  <-> (0.999 <= tr + va + te)%Q /\ (tr + va + te <= 1.001)%Q.
Proof.
  unfold ratios_accepted, qadd.
  rewrite andb_true_iff, !Qle_bool_iff, !Qred_correct.
  reflexivity.
Qed.

Lemma split_dataset_rejects `{Generator} (w : World) (r : nat) (tr va te : Q) :
  ratios_accepted tr va te = false ->
  Splitter.split_dataset r tr va te w = (w, Raise ValueError).
Proof.
  intros Hacc. unfold Splitter.split_dataset.
  change (Qle_bool 0.999 (qadd (qadd tr va) te)
          && Qle_bool (qadd (qadd tr va) te) 1.001)
    with (ratios_accepted tr va te).
  rewrite Hacc. reflexivity.
Qed.

Lemma split_dataset_runs `{Generator} (w : World) (r : nat) (ids : list Z)
    (tr va te : Q) :
  heap w !! r = Some ids ->
  ratios_accepted tr va te = true ->
  exists w',
    Splitter.split_dataset r tr va te w
    = (w', Ok (split_slices (shuffle_list ids (rng w)).1 tr va te))
    /\ heap w' = <[fresh (dom (heap w)) := (shuffle_list ids (rng w)).1]> (heap w)
    /\ rng w' = (shuffle_list ids (rng w)).2
    /\ src_images w' = src_images w
    /\ dirs w' = dirs w
    /\ files w' = files w.
Proof.
  intros Hr Hacc. unfold Splitter.split_dataset.
  change (Qle_bool 0.999 (qadd (qadd tr va) te)
          && Qle_bool (qadd (qadd tr va) te) 1.001)
    with (ratios_accepted tr va te).
  rewrite Hacc. cbn [negb].
  unfold random_shuffle, load, alloc, store, modify, get_world, mbind, M_bind, mret, M_ret.
  cbn [heap set_heap rng set_rng src_images dirs files].
  rewrite Hr. cbn [default from_option id].
  rewrite lookup_insert_eq. cbn [default from_option id].
  destruct (shuffle_list ids (rng w)) as [l' g'] eqn:E.
  cbn [heap set_heap rng set_rng src_images dirs files fst snd].
  rewrite insert_insert_eq, lookup_insert_eq. cbn [default from_option id].
  eexists. split; [reflexivity|]. cbn. auto.
Qed.

Lemma split_ends_ordered (n : nat) (tr va : Q) :
  (0 <= tr)%Q -> (0 <= va)%Q ->
  0 <= py_int (qmul (inject_Z (Z.of_nat n)) tr)
    <= py_int (qmul (inject_Z (Z.of_nat n)) (qadd tr va)).
Proof.
  intros Htr Hva.
  assert (Hn : (0 <= inject_Z (Z.of_nat n))%Q).
  { unfold Qle, inject_Z; simpl. lia. }
  apply py_int_mono; [by apply qmul_nonneg|].
  unfold qmul, qadd. rewrite !Qred_correct.
  rewrite !(Qmult_comm (inject_Z (Z.of_nat n))).
  apply Qmult_le_compat_r; [|assumption].
  rewrite <- (Qplus_0_r tr) at 1. by apply Qplus_le_r.
Qed.

Lemma split_val_end_covers (n : nat) (tr va : Q) :
  (1 <= tr + va)%Q ->
  Z.of_nat n <= py_int (qmul (inject_Z (Z.of_nat n)) (qadd tr va)).
Proof.
  intros Hsum.
  assert (Hn : (0 <= inject_Z (Z.of_nat n))%Q).
  { unfold Qle, inject_Z; simpl. lia. }
  assert (E : py_int (inject_Z (Z.of_nat n)) = Z.of_nat n).
  { rewrite py_int_floor by assumption. apply Qfloor_Z. }
  rewrite <- E at 1. apply py_int_mono; [assumption|].
  unfold qmul, qadd. rewrite !Qred_correct.
  rewrite <- (Qmult_1_r (inject_Z (Z.of_nat n))) at 1.
  rewrite !(Qmult_comm (inject_Z (Z.of_nat n))).
  by apply Qmult_le_compat_r.
Qed.

Lemma py_slice_tail_empty {A} (l : list A) (b : Z) :
  Z.of_nat (length l) <= b -> py_slice l (Some b) None = [].
Proof.
  intros Hb. unfold py_slice. cbn [from_option].
  rewrite slice_bound_nonneg by lia.
  replace (Nat.min (Z.to_nat b) (length l)) with (length l) by lia.
  by rewrite Nat.sub_diag, take_0.
Qed.

Lemma split_dataset_groups `{Generator} (w : World) (r : nat)
    (ids : list Z) (tr va te : Q) :
  heap w !! r = Some ids ->
  (0.999 <= tr + va + te)%Q -> (tr + va + te <= 1.001)%Q ->
  (0 <= tr)%Q -> (0 <= va)%Q ->
  exists w' train val test rest,
    Splitter.split_dataset r tr va te w = (w', Ok (train, val, test))
    /\ ids ≡ₚ train ++ val ++ test ++ rest
    /\ ((0 < te)%Q \/ (1 <= tr + va)%Q -> rest = [])
    /\ (~ (0 < te)%Q -> test = [])
    /\ length (train ++ val)
       = Nat.min (length ids)
           (Z.to_nat (py_int (qmul (inject_Z (Z.of_nat (length ids)))
                                (qadd tr va)))).
Proof.
  intros Hr Hlo Hhi Htr Hva.
  assert (Hacc : ratios_accepted tr va te = true)
    by (apply ratios_accepted_iff; by split).
  destruct (split_dataset_runs w r ids tr va te Hr Hacc) as (w' & Hrun & _).
  pose proof (shuffle_list_perm ids (rng w)) as Hperm.
  set (shuffled := (shuffle_list ids (rng w)).1) in *.
  assert (Hlen : length shuffled = length ids) by (by rewrite Hperm).
  unfold split_slices in Hrun. rewrite Hlen in Hrun.
  pose proof (split_ends_ordered (length ids) tr va Htr Hva) as Hends.
  set (a := py_int (qmul (inject_Z (Z.of_nat (length ids))) tr)) in *.
  set (b := py_int (qmul (inject_Z (Z.of_nat (length ids))) (qadd tr va))) in *.
  pose proof (py_slice_three shuffled a b Hends) as Hthree.
  assert (Htwo : length (py_slice shuffled None (Some a)
                         ++ py_slice shuffled (Some a) (Some b))
                 = Nat.min (length ids) (Z.to_nat b)).
  { rewrite py_slice_two by assumption. rewrite length_take. lia. }
  destruct (Qlt_le_dec 0 te) as [Hte|Hte].
  - exists w', (py_slice shuffled None (Some a)),
      (py_slice shuffled (Some a) (Some b)),
      (py_slice shuffled (Some b) None), [].
    split; [exact Hrun|]. rewrite app_nil_r, Hthree.
    split; [by symmetry|]. split; [done|]. split; [|exact Htwo].
    intros Hn. by destruct Hn.
  - exists w', (py_slice shuffled None (Some a)),
      (py_slice shuffled (Some a) (Some b)), [],
      (py_slice shuffled (Some b) None).
    split; [exact Hrun|]. cbn [app]. rewrite Hthree.
    split; [by symmetry|]. split; [|split; [done|exact Htwo]].
    intros [Hpos|Hsum].
    + exfalso. by apply (Qlt_not_le 0 te).
    + apply py_slice_tail_empty. rewrite Hlen.
      by apply split_val_end_covers.
Qed.




(** C3: seeding the generator with the same seed and splitting the same
    sequence with the same ratios returns the same groups (or the same
    error), whatever the generator, the heap and the files were before. *)
Theorem seeded_split_deterministic `{Generator} (w1 w2 : World)
    (r1 r2 : nat) (ids : list Z) (tr va te : Q) (seed : Z) :
  heap w1 !! r1 = Some ids ->
  heap w2 !! r2 = Some ids ->
  ((random_seed seed;; Splitter.split_dataset r1 tr va te) w1).2
  = ((random_seed seed;; Splitter.split_dataset r2 tr va te) w2).2.
Proof.
  intros H1 H2.
  unfold mbind, M_bind, random_seed, modify.
  destruct (ratios_accepted tr va te) eqn:Hacc.
  - destruct (split_dataset_runs (set_rng (seed_state seed) w1) r1 ids
                tr va te H1 Hacc) as (w1' & -> & _).
    destruct (split_dataset_runs (set_rng (seed_state seed) w2) r2 ids
                tr va te H2 Hacc) as (w2' & -> & _).
    reflexivity.
  - by rewrite !split_dataset_rejects.
Qed.

Lemma seeded_split_deterministic_witness :
  ((random_seed 101;; Splitter.split_dataset 0 0.8 0.2 0)
     (world_with_ids 1 [1; 2; 3; 4; 5])).2
  = ((random_seed 101;; Splitter.split_dataset 0 0.8 0.2 0)
       (world_with_ids 2 [1; 2; 3; 4; 5])).2.
Proof.
  apply (seeded_split_deterministic (world_with_ids 1 [1; 2; 3; 4; 5])
           (world_with_ids 2 [1; 2; 3; 4; 5]) 0 0 [1; 2; 3; 4; 5]);
    reflexivity.
Defined.

(** Without the seeding the result depends on the state the generator is
    in: the same call from two generator states. *)
Lemma unseeded_split_depends_on_state :
  (Splitter.split_dataset 0 0.8 0.2 0 (world_with_ids 1 [1; 2; 3; 4; 5])).2
  <> (Splitter.split_dataset 0 0.8 0.2 0 (world_with_ids 2 [1; 2; 3; 4; 5])).2.
Proof. vm_compute. discriminate. Qed.

(** C10: [split_dataset] leaves the list object it is given as it was; the
    shuffle acts on the copy, a new object. *)
Theorem split_dataset_keeps_input `{Generator} (w : World) (r : nat)
    (ids : list Z) (tr va te : Q) :
  heap w !! r = Some ids ->
  heap (Splitter.split_dataset r tr va te w).1 !! r = Some ids.
Proof.
  intros Hr. destruct (ratios_accepted tr va te) eqn:Hacc.
  - destruct (split_dataset_runs w r ids tr va te Hr Hacc)
      as (w' & -> & Hheap & _).
    cbn [fst]. rewrite Hheap, lookup_insert_ne; [assumption|].
    intros <-. apply (is_fresh (dom (heap w))).
    by apply elem_of_dom_2 in Hr.
  - by rewrite split_dataset_rejects.
Qed.

Lemma split_dataset_keeps_input_witness :
  heap (Splitter.split_dataset 0 0.8 0.2 0
          (world_with_ids 1 [1; 2; 3; 4; 5])).1 !! 0%nat
  = Some [1; 2; 3; 4; 5].
Proof.
  apply (split_dataset_keeps_input (world_with_ids 1 [1; 2; 3; 4; 5]) 0
           [1; 2; 3; 4; 5]).
  reflexivity.
Defined.

(** The copy is another object, and it is the one that gets shuffled. *)
Lemma split_dataset_shuffles_copy :
  heap (Splitter.split_dataset 0 0.8 0.2 0
          (world_with_ids 1 [1; 2; 3; 4; 5])).1
  = {[ 0%nat := [1; 2; 3; 4; 5]; 1%nat := [5; 4; 1; 3; 2] ]}.
Proof. vm_compute. reflexivity. Qed.

(** ** What a run of the splitting converter touches *)

Section process_image.
Context `{Generator}.
Variable idx : gmap Z nat.
Variable info : gmap Z Image.
Variable groups : list (Z * list Annotation).

Lemma process_image_unknown (s : string) (id : Z)
    (acc : list string * list string) (w : World) :
  info !! id = None ->
  Splitter.process_image idx info groups s id acc w = (w, Raise KeyError).
Proof.
  intros Hid. destruct acc as [missing copied].
  unfold Splitter.process_image, getitem. rewrite Hid. reflexivity.
Qed.

Lemma process_image_missing (s : string) (id : Z) (im : Image)
    (missing copied : list string) (w : World) :
  info !! id = Some im ->
  file_name im ∉ src_images w ->
  Splitter.process_image idx info groups s id (missing, copied) w
  = (w, Ok (missing ++ [file_name im], copied)).
Proof.
  intros Hid Hsrc. unfold Splitter.process_image, getitem. rewrite Hid.
  unfold_M. rewrite bool_decide_eq_false_2 by assumption. reflexivity.
Qed.

Lemma process_image_present (s : string) (id : Z) (im : Image)
    (missing copied : list string) (w : World) :
  info !! id = Some im ->
  file_name im ∈ src_images w ->
  let dst := [s; "images"; file_name im] in
  let present :=
    bool_decide (dst ∈ dirs w) || bool_decide (is_Some (files w !! dst)) in
  let files1 :=
    if present then files w else <[dst := ImageFile (file_name im)]> (files w) in
  let copied' := if present then copied else copied ++ [file_name im] in
  Splitter.process_image idx info groups s id (missing, copied) w
  = (set_files
       (<[[s; "labels"; label_name (file_name im)]
          := LabelFile (label_body idx groups id im).1]> files1) w,
     match (label_body idx groups id im).2 with
     | Ok _ => Ok (missing, copied')
     | Raise e => Raise e
     end).
Proof.
  intros Hid Hsrc dst present files1 copied'.
  unfold Splitter.process_image, getitem. rewrite Hid.
  unfold_M. rewrite bool_decide_eq_true_2 by assumption.
  fold dst. fold present. subst files1 copied'.
  unfold label_body, mbind.
  destruct present; unfold_M;
    destruct (emit_bind _ _ _ _) as [ls [[]|e]]; reflexivity.
Qed.

Lemma process_image_frame (s : string) (id : Z)
    (acc : list string * list string) (w : World) :
  same_outside [s] w (Splitter.process_image idx info groups s id acc w).1.
Proof.
  destruct acc as [missing copied].
  destruct (info !! id) as [im|] eqn:Hid.
  - destruct (decide (file_name im ∈ src_images w)) as [Hsrc|Hsrc].
    + rewrite (process_image_present s id im) by assumption.
      cbn [fst]. repeat split. intros p Hp.
      assert (Hs : head p <> Some s) by (apply Hp; set_solver).
      cbn [files set_files].
      rewrite lookup_insert_ne by (intros <-; by apply Hs).
      destruct (_ || _); [reflexivity|].
      rewrite lookup_insert_ne by (intros <-; by apply Hs). reflexivity.
    + rewrite (process_image_missing s id im) by assumption.
      by repeat split.
  - rewrite process_image_unknown by assumption. by repeat split.
Qed.

End process_image.

Lemma same_outside_refl `{Generator} (names : list string) (w : World) :
  same_outside names w w.
Proof. by repeat split. Qed.

Lemma same_outside_trans `{Generator} (names : list string) (w1 w2 w3 : World) :
  same_outside names w1 w2 -> same_outside names w2 w3 ->
  same_outside names w1 w3.
Proof.
  intros (? & ? & ? & ? & Hf1) (? & ? & ? & ? & Hf2).
  repeat split; try congruence.
  intros p Hp. rewrite Hf2, Hf1 by assumption. reflexivity.
Qed.

Lemma same_outside_weaken `{Generator} (names names' : list string)
    (w w' : World) :
  names ⊆ names' -> same_outside names w w' -> same_outside names' w w'.
Proof.
  intros Hsub (? & ? & ? & ? & Hf). repeat split; try assumption.
  intros p Hp. apply Hf. intros s Hs. apply Hp. by apply Hsub.
Qed.

(** The bind of [M], one step at a time. *)
Lemma bind_run `{Generator} {A B} (m : M A) (f : A -> M B) (w : World) :
  (m ≫= f) w
  = match m w with
    | (w', Ok a) => f a w'
    | (w', Raise e) => (w', Raise e)
    end.
Proof. reflexivity. Qed.

Section process_split.
Context `{Generator}.
Variable idx : gmap Z nat.
Variable info : gmap Z Image.
Variable groups : list (Z * list Annotation).

Lemma process_split_frame (s : string) (ids : list Z)
    (acc : list string * list string) (w : World) :
  same_outside [s] w (Splitter.process_split idx info groups s ids acc w).1.
Proof.
  revert acc w. induction ids as [|id ids IH]; intros acc w.
  - apply same_outside_refl.
  - cbn [Splitter.process_split]. rewrite bind_run.
    pose proof (process_image_frame idx info groups s id acc w) as Hstep.
    destruct (Splitter.process_image idx info groups s id acc w)
      as [w' [acc'|e]]; cbn [fst] in *.
    + eapply same_outside_trans; [exact Hstep|apply IH].
    + exact Hstep.
Qed.

Lemma process_splits_frame (splits : list (string * list Z))
    (acc : list string * list string) (w : World) :
  same_outside (processed_names splits) w
    (Splitter.process_splits idx info groups splits acc w).1.
Proof.
  revert acc w. induction splits as [|[s ids] splits IH]; intros acc w.
  - apply same_outside_refl.
  - cbn [Splitter.process_splits]. rewrite bind_run.
    destruct ids as [|id ids].
    + cbn. apply (IH acc w).
    + pose proof (process_split_frame s (id :: ids) acc w) as Hstep.
      unfold processed_names. rewrite filter_cons_True by done.
      cbn [fmap list_fmap fst]. fold (processed_names splits).
      destruct (Splitter.process_split idx info groups s (id :: ids) acc w)
        as [w' [acc'|e]]; cbn [fst] in *.
      * eapply same_outside_trans.
        -- eapply same_outside_weaken; [|exact Hstep].
           intros x Hx. apply list_elem_of_singleton in Hx as ->. by left.
        -- eapply same_outside_weaken; [|apply IH].
           intros x Hx. by right.
      * eapply same_outside_weaken; [|exact Hstep].
        intros x Hx. apply list_elem_of_singleton in Hx as ->. by left.
Qed.

Lemma process_image_stops (s : string) (id : Z)
    (acc : list string * list string) (w : World) :
  stops_at idx info groups (src_images w) id ->
  exists e, (Splitter.process_image idx info groups s id acc w).2 = Raise e.
Proof.
  unfold stops_at. intros Hstop. destruct acc as [missing copied].
  destruct (info !! id) as [im|] eqn:Hid.
  - destruct Hstop as [Hsrc [e He]].
    rewrite (process_image_present idx info groups s id im) by assumption.
    cbn [snd]. rewrite He. by exists e.
  - rewrite process_image_unknown by assumption. by exists KeyError.
Qed.

Lemma process_split_stops (s : string) (ids : list Z) (id : Z)
    (acc : list string * list string) (w : World) :
  id ∈ ids -> stops_at idx info groups (src_images w) id ->
  exists e, (Splitter.process_split idx info groups s ids acc w).2 = Raise e.
Proof.
  intros Hin. revert acc w. induction ids as [|id' ids IH]; intros acc w Hstop.
  - by apply elem_of_nil in Hin.
  - cbn [Splitter.process_split]. rewrite bind_run.
    pose proof (process_image_frame idx info groups s id' acc w) as Hfr.
    destruct (Splitter.process_image idx info groups s id' acc w)
      as [w' [acc'|e]] eqn:Hstep; cbn [fst] in Hfr; [|by exists e].
    apply elem_of_cons in Hin as [->|Hin].
    + destruct (process_image_stops s id' acc w Hstop) as [e He].
      rewrite Hstep in He. discriminate.
    + apply IH; [assumption|]. destruct Hfr as (_ & _ & -> & _). exact Hstop.
Qed.

Lemma process_splits_stops (splits : list (string * list Z)) (s : string)
    (ids : list Z) (id : Z) (acc : list string * list string) (w : World) :
  (s, ids) ∈ splits -> id ∈ ids ->
  stops_at idx info groups (src_images w) id ->
  exists e, (Splitter.process_splits idx info groups splits acc w).2 = Raise e.
Proof.
  intros Hsp Hid. revert acc w.
  induction splits as [|[s' ids'] splits IH]; intros acc w Hstop.
  - by apply elem_of_nil in Hsp.
  - cbn [Splitter.process_splits]. rewrite bind_run.
    destruct ids' as [|i' ids''].
    + cbn. apply elem_of_cons in Hsp as [Heq|Hsp].
      * injection Heq as -> ->. by apply elem_of_nil in Hid.
      * by apply IH.
    + pose proof (process_split_frame s' (i' :: ids'') acc w) as Hfr.
      destruct (Splitter.process_split idx info groups s' (i' :: ids'') acc w)
        as [w' [acc'|e]] eqn:Hstep; cbn [fst] in Hfr; [|by exists e].
      apply elem_of_cons in Hsp as [Heq|Hsp].
      * injection Heq as -> ->.
        destruct (process_split_stops s' (i' :: ids'') id acc w Hid Hstop)
          as [e He].
        rewrite Hstep in He. discriminate.
      * apply IH; [assumption|].
        destruct Hfr as (_ & _ & -> & _). exact Hstop.
Qed.

End process_split.

(** ** Grouping the annotations *)

Lemma group_annotations_snoc (anns : list Annotation) (a : Annotation) :
  group_annotations (anns ++ [a])
  = group_append (image_id a) a (group_annotations anns).
Proof. unfold group_annotations. by rewrite foldl_app. Qed.

Lemma getitem_assoc_append_same (k : Z) (a : Annotation)
    (d : list (Z * list Annotation)) :
  exists anns, getitem_assoc (group_append k a d) k = Ok anns /\ a ∈ anns.
Proof.
  induction d as [|[k' v] d IH]; cbn.
  - rewrite decide_True by done. exists [a].
    split; [done|by apply list_elem_of_singleton].
  - destruct (decide (k' = k)) as [->|Hne]; cbn.
    + rewrite decide_True by done. exists (v ++ [a]).
      split; [done|]. apply elem_of_app. right. by apply list_elem_of_singleton.
    + rewrite decide_False by done. exact IH.
Qed.

Lemma getitem_assoc_append_keeps (k k' : Z) (a x : Annotation)
    (d : list (Z * list Annotation)) (anns : list Annotation) :
  getitem_assoc d k' = Ok anns -> x ∈ anns ->
  exists anns', getitem_assoc (group_append k a d) k' = Ok anns' /\ x ∈ anns'.
Proof.
  intros Hget Hx. induction d as [|[k0 v] d IH]; cbn in *; [discriminate|].
  destruct (decide (k0 = k)) as [->|Hne]; cbn.
  - destruct (decide (k = k')) as [->|Hne'].
    + injection Hget as ->. exists (anns ++ [a]).
      split; [done|]. apply elem_of_app. by left.
    + by exists anns.
  - destruct (decide (k0 = k')) as [->|Hne'].
    + by exists anns.
    + by apply IH.
Qed.

Lemma group_annotations_lookup (anns : list Annotation) (a : Annotation) :
  a ∈ anns ->
  exists group,
    getitem_assoc (group_annotations anns) (image_id a) = Ok group
    /\ a ∈ group.
Proof.
  induction anns as [|b anns IH] using rev_ind; intros Hin.
  - by apply elem_of_nil in Hin.
  - rewrite group_annotations_snoc.
    apply elem_of_app in Hin as [Hin|Hin].
    + destruct (IH Hin) as (group & Hget & Hmem).
      by eapply getitem_assoc_append_keeps.
    + apply list_elem_of_singleton in Hin as ->.
      apply getitem_assoc_append_same.
Qed.

Lemma getitem_assoc_key {V} (d : list (Z * V)) (k : Z) (v : V) :
  getitem_assoc d k = Ok v -> k ∈ map fst d.
Proof.
  induction d as [|[k' v'] d IH]; cbn; [discriminate|].
  destruct (decide (k' = k)) as [->|Hne]; intros Hget.
  - apply elem_of_cons. by left.
  - apply elem_of_cons. right. by apply IH.
Qed.

(** ** Writing the label of an image *)

Lemma write_annotations_unknown_category (idx : gmap Z nat) (W Hh : Z)
    (anns : list Annotation) (ann : Annotation) :
  ann ∈ anns -> idx !! category_id ann = None ->
  exists e, (Splitter.write_annotations idx W Hh anns).2 = Raise e.
Proof.
  intros Hin Hcat. induction anns as [|a anns IH].
  - by apply elem_of_nil in Hin.
  - cbn [Splitter.write_annotations]. unfold mbind, emit_bind.
    destruct (Splitter.write_annotation idx W Hh a) as [ls [[]|e]] eqn:Hfirst;
      [|by exists e].
    apply elem_of_cons in Hin as [->|Hin].
    + unfold Splitter.write_annotation, getitem in Hfirst.
      rewrite Hcat in Hfirst. discriminate.
    + destruct (IH Hin) as [e He].
      destruct (Splitter.write_annotations idx W Hh anns) as [ls' r'].
      cbn in *. by exists e.
Qed.

(** ** The directory structure *)

Lemma create_directory_structure_run `{Generator} (w : World) :
  exists d,
    Splitter.create_directory_structure w = (set_dirs (dirs w ∪ d) w, Ok tt)
    /\ forall split subdir,
         split ∈ ["train"; "valid"; "test"] ->
         subdir ∈ ["images"; "labels"] ->
         [split; subdir] ∈ d.
Proof.
  exists (list_to_set
            (prefixes ["train"; "images"] ++ prefixes ["train"; "labels"]
             ++ prefixes ["valid"; "images"] ++ prefixes ["valid"; "labels"]
             ++ prefixes ["test"; "images"] ++ prefixes ["test"; "labels"])).
  split.
  - unfold Splitter.create_directory_structure. cbn [foldr].
    unfold_M. cbn [dirs set_dirs rng heap src_images files].
    unfold set_dirs. cbn [dirs rng heap src_images files].
    rewrite !list_to_set_app_L, !(assoc_L (∪)). reflexivity.
  - intros split subdir Hs Hd.
    repeat (apply elem_of_cons in Hs as [->|Hs]);
      repeat (apply elem_of_cons in Hd as [->|Hd]);
      try (by apply elem_of_nil in Hs); try (by apply elem_of_nil in Hd);
      cbn; set_solver.
Qed.

(** ** A run of the splitting converter, step by step *)

Lemma coco_to_yolo_cases `{Generator} (data : CocoData) (tr va te : Q)
    (seed : Z) (w : World) :
  let idx := build_category_id_to_index (categories data) in
  let info := build_image_id_to_info (images data) in
  let groups := group_annotations (annotations data) in
  exists w2,
    files w2 = files w /\ src_images w2 = src_images w
    /\ (forall split subdir,
          split ∈ ["train"; "valid"; "test"] ->
          subdir ∈ ["images"; "labels"] ->
          [split; subdir] ∈ dirs w2)
    /\ if ratios_accepted tr va te then
         exists shuffled,
           shuffled ≡ₚ (map fst groups)
           /\ Splitter.coco_to_yolo data tr va te seed w
              = (let '(a, b, c) := split_slices shuffled tr va te in
                 match Splitter.process_splits idx info groups
                         [("train", a); ("valid", b); ("test", c)] ([], []) w2
                 with
                 | (w3, Ok (missing, copied)) =>
                     (set_files
                        (<[["data.yaml"]
                           := Splitter.data_yaml (categories data) te]>
                           (files w3)) w3,
                      Ok (mkSummary a b c copied missing))
                 | (w3, Raise e) => (w3, Raise e)
                 end)
       else Splitter.coco_to_yolo data tr va te seed w
            = (w2, Raise ValueError).
Proof.
  intros idx info groups.
  unfold Splitter.coco_to_yolo. fold idx info groups.
  rewrite bind_run. cbn [random_seed modify].
  set (w0 := set_rng (seed_state seed) w).
  destruct (create_directory_structure_run w0) as (d & Hcreate & Hd).
  rewrite bind_run, Hcreate. set (w1 := set_dirs (dirs w0 ∪ d) w0).
  set (r := fresh (dom (heap w1))).
  set (w1' := set_heap (<[r := map fst groups]> (heap w1)) w1).
  assert (Hr : heap w1' !! r = Some (map fst groups)) by apply lookup_insert_eq.
  rewrite bind_run. change (alloc (map fst groups) w1) with (w1', Ok r).
  cbn beta iota. rewrite bind_run.
  destruct (ratios_accepted tr va te) eqn:Hacc.
  - destruct (split_dataset_runs w1' r (map fst groups) tr va te Hr Hacc)
      as (w2 & Hrun & _ & _ & Hsrc & Hdirs & Hfiles).
    exists w2. split; [by rewrite Hfiles|]. split; [by rewrite Hsrc|].
    split.
    { intros split subdir Hs Hsub. rewrite Hdirs. cbn.
      apply elem_of_union_r. by apply Hd. }
    exists (shuffle_list (map fst groups) (rng w1')).1.
    split; [apply shuffle_list_perm|].
    rewrite Hrun. unfold split_slices. cbn beta iota zeta.
    rewrite bind_run.
    destruct (Splitter.process_splits _ _ _ _ _ w2) as [w3 [[missing copied]|e]];
      reflexivity.
  - exists w1'. split; [reflexivity|]. split; [reflexivity|]. split.
    { intros split subdir Hs Hsub. cbn. apply elem_of_union_r. by apply Hd. }
    by rewrite split_dataset_rejects.
Qed.

Lemma split_slices_cover (l : list Z) (tr va te : Q) :
  (0 <= tr)%Q -> (0 <= va)%Q ->
  (0 < te)%Q \/ (1 <= tr + va)%Q ->
  let '(a, b, c) := split_slices l tr va te in a ++ b ++ c = l.
Proof.
  intros Htr Hva Hall. unfold split_slices.
  pose proof (split_ends_ordered (length l) tr va Htr Hva) as Hends.
  pose proof (py_slice_three l _ _ Hends) as Hthree.
  destruct (Qlt_le_dec 0 te) as [Hte|Hte]; [exact Hthree|].
  destruct Hall as [Hpos|Hsum]; [exfalso; by apply (Qlt_not_le 0 te)|].
  rewrite py_slice_tail_empty in Hthree by (by apply split_val_end_covers).
  exact Hthree.
Qed.

Lemma split_slices_no_test (l : list Z) (tr va te : Q) :
  ~ (0 < te)%Q -> (split_slices l tr va te).2 = [].
Proof.
  intros Hte. unfold split_slices. cbn [snd].
  by destruct (Qlt_le_dec 0 te).
Qed.

Lemma processed_names_three (a b c : list Z) :
  processed_names [("train", a); ("valid", b); ("test", c)]
  ⊆ ["train"; "valid"; "test"].
Proof.
  unfold processed_names. intros x Hx.
  apply list_elem_of_fmap in Hx as ([s ids] & -> & Hin).
  apply list_elem_of_filter in Hin as [_ Hin]. cbn [fst].
  repeat (apply elem_of_cons in Hin as [[= -> ->]|Hin];
          [set_solver|]).
  by apply elem_of_nil in Hin.
Qed.

Lemma processed_names_no_test (a b : list Z) :
  processed_names [("train", a); ("valid", b); ("test", [])]
  ⊆ ["train"; "valid"].
Proof.
  unfold processed_names. intros x Hx.
  apply list_elem_of_fmap in Hx as ([s ids] & -> & Hin).
  apply list_elem_of_filter in Hin as [Hne Hin]. cbn [fst snd] in *.
  repeat (apply elem_of_cons in Hin as [[= -> ->]|Hin];
          [set_solver|]).
  by apply elem_of_nil in Hin.
Qed.

(** ** Which exception a well-formed document can raise *)

Lemma getitem_assoc_raises {V} (d : list (Z * V)) (k : Z) (e : exn) :
  getitem_assoc d k = Raise e -> e = KeyError.
Proof.
  induction d as [|[k' v] d IH]; cbn; [by intros [= <-]|].
  destruct (decide (k' = k)); [discriminate|exact IH].
Qed.

Lemma write_annotation_raises (idx : gmap Z nat) (W H : Z)
    (ann : Annotation) (e : exn) :
  W <> 0 -> H <> 0 -> well_formed_annotation ann ->
  (Splitter.write_annotation idx W H ann).2 = Raise e -> e = KeyError.
Proof.
  intros HW HH [Hsegs Hbox].
  unfold Splitter.write_annotation, getitem.
  destruct (idx !! category_id ann) as [c|]; [|by intros [= <-]].
  cbn -[Splitter.write_segmentation bbox_line].
  unfold has_segmentation.
  destruct (segmentation ann) as [[|seg segs]|] eqn:Hseg; cbn [andb].
  - destruct (bbox ann) as [b|] eqn:Hb; [|discriminate].
    specialize (Hbox b eq_refl).
    destruct b as [|x [|y [|w [|h [|? ?]]]]]; try discriminate.
    unfold mbind, emit_bind, lift. by rewrite bbox_line_yolo_box.
  - destruct (not_crowd ann).
    + cbn [default from_option id].
      rewrite splitter_write_segmentation by (try assumption; by apply Hsegs).
      discriminate.
    + destruct (bbox ann) as [b|] eqn:Hb; [|discriminate].
      specialize (Hbox b eq_refl).
      destruct b as [|x [|y [|w [|h [|? ?]]]]]; try discriminate.
      unfold mbind, emit_bind, lift. by rewrite bbox_line_yolo_box.
  - destruct (bbox ann) as [b|] eqn:Hb; [|discriminate].
    specialize (Hbox b eq_refl).
    destruct b as [|x [|y [|w [|h [|? ?]]]]]; try discriminate.
    unfold mbind, emit_bind, lift. by rewrite bbox_line_yolo_box.
Qed.

Lemma write_annotations_raises (idx : gmap Z nat) (W H : Z)
    (anns : list Annotation) (e : exn) :
  W <> 0 -> H <> 0 -> Forall well_formed_annotation anns ->
  (Splitter.write_annotations idx W H anns).2 = Raise e -> e = KeyError.
Proof.
  intros HW HH Hall. induction Hall as [|ann anns Hann _ IH];
    cbn [Splitter.write_annotations]; [discriminate|].
  pose proof (write_annotation_raises idx W H ann e HW HH Hann) as Hfirst.
  unfold mbind, emit_bind.
  destruct (Splitter.write_annotation idx W H ann) as [l0 [[]|e0]];
    cbn [snd] in *; [|exact Hfirst].
  destruct (Splitter.write_annotations idx W H anns) as [l1 r1].
  exact IH.
Qed.

Lemma group_append_Forall (P : Annotation -> Prop) (k : Z) (a : Annotation)
    (d : list (Z * list Annotation)) :
  P a -> Forall (fun g => Forall P g.2) d ->
  Forall (fun g => Forall P g.2) (group_append k a d).
Proof.
  intros Ha Hd. induction Hd as [|[k0 v] d Hv Hd IH]; cbn.
  - by repeat constructor.
  - destruct (decide (k0 = k)).
    + constructor; [|exact Hd]. cbn in *.
      apply Forall_app. split; [done|by constructor].
    + constructor; [done|exact IH].
Qed.

Lemma group_annotations_Forall (P : Annotation -> Prop)
    (anns : list Annotation) :
  Forall P anns -> Forall (fun g => Forall P g.2) (group_annotations anns).
Proof.
  induction anns as [|a anns IH] using rev_ind; intros Hall; [constructor|].
  apply Forall_app in Hall as [Hall Ha]. rewrite group_annotations_snoc.
  apply group_append_Forall; [by inversion Ha|by apply IH].
Qed.

Lemma getitem_assoc_Forall {V} (P : V -> Prop) (d : list (Z * V)) (k : Z)
    (v : V) :
  Forall (fun g => P g.2) d -> getitem_assoc d k = Ok v -> P v.
Proof.
  intros Hd. induction Hd as [|[k0 v0] d Hv _ IH]; cbn; [discriminate|].
  destruct (decide (k0 = k)); [by intros [= <-]|exact IH].
Qed.

Lemma build_image_id_to_info_elem (imgs : list Image) (k : Z) (im : Image) :
  build_image_id_to_info imgs !! k = Some im -> im ∈ imgs.
Proof.
  induction imgs as [|x imgs IH] using rev_ind; [discriminate|].
  unfold build_image_id_to_info in *. rewrite foldl_app. cbn [foldl].
  destruct (decide (img_id x = k)) as [<-|Hne].
  - rewrite lookup_insert_eq. intros [= <-].
    apply elem_of_app. right. by apply list_elem_of_singleton.
  - rewrite lookup_insert_ne by done. intros Hk.
    apply elem_of_app. left. by apply IH.
Qed.

Section only_key_error.
Context `{Generator}.
Variable idx : gmap Z nat.
Variable info : gmap Z Image.
Variable groups : list (Z * list Annotation).
Hypothesis info_sizes :
  forall id im, info !! id = Some im -> width im <> 0 /\ height im <> 0.
Hypothesis groups_well_formed :
  Forall (fun g => Forall well_formed_annotation g.2) groups.

Lemma label_body_raises (id : Z) (im : Image) (e : exn) :
  info !! id = Some im ->
  (label_body idx groups id im).2 = Raise e -> e = KeyError.
Proof.
  intros Him. destruct (info_sizes id im Him) as [HW HH].
  unfold label_body, mbind, emit_bind, lift.
  destruct (getitem_assoc groups id) as [anns|e0] eqn:Hget.
  - pose proof (getitem_assoc_Forall (Forall well_formed_annotation)
                  groups id anns groups_well_formed Hget) as Hanns.
    pose proof (write_annotations_raises idx (width im) (height im) anns e
                  HW HH Hanns) as Hraise.
    destruct (Splitter.write_annotations idx (width im) (height im) anns).
    exact Hraise.
  - cbn. intros [= <-]. by eapply getitem_assoc_raises.
Qed.

Lemma process_image_raises (s : string) (id : Z)
    (acc : list string * list string) (w : World) (e : exn) :
  (Splitter.process_image idx info groups s id acc w).2 = Raise e ->
  e = KeyError.
Proof.
  destruct acc as [missing copied].
  destruct (info !! id) as [im|] eqn:Hid.
  - destruct (decide (file_name im ∈ src_images w)) as [Hsrc|Hsrc].
    + rewrite (process_image_present idx info groups s id im) by assumption.
      cbn [snd]. pose proof (label_body_raises id im e Hid) as Hbody.
      destruct ((label_body idx groups id im).2); [discriminate|].
      intros [= <-]. by apply Hbody.
    + by rewrite (process_image_missing idx info groups s id im).
  - rewrite process_image_unknown by assumption. by intros [= <-].
Qed.

Lemma process_split_raises (s : string) (ids : list Z)
    (acc : list string * list string) (w : World) (e : exn) :
  (Splitter.process_split idx info groups s ids acc w).2 = Raise e ->
  e = KeyError.
Proof.
  revert acc w. induction ids as [|id ids IH]; intros acc w; [discriminate|].
  cbn [Splitter.process_split]. rewrite bind_run.
  pose proof (process_image_raises s id acc w e) as Hstep.
  destruct (Splitter.process_image idx info groups s id acc w)
    as [w1 [acc1|e1]]; cbn [snd] in *; [apply IH|exact Hstep].
Qed.

Lemma process_splits_raises (splits : list (string * list Z))
    (acc : list string * list string) (w : World) (e : exn) :
  (Splitter.process_splits idx info groups splits acc w).2 = Raise e ->
  e = KeyError.
Proof.
  revert acc w. induction splits as [|[s ids] splits IH]; intros acc w;
    [discriminate|].
  cbn [Splitter.process_splits]. rewrite bind_run.
  destruct ids as [|id ids]; [apply IH|].
  pose proof (process_split_raises s (id :: ids) acc w e) as Hstep.
  destruct (Splitter.process_split idx info groups s (id :: ids) acc w)
    as [w1 [acc1|e1]]; cbn [snd] in *; [apply IH|exact Hstep].
Qed.

End only_key_error.

(** ** Unresolved references *)




(** ** A test ratio of zero *)

(** C9, as the code has it: with [test_ratio] equal to 0 no file below
    [test] is created or changed, and [data.yaml], when the run gets to
    write it, has no [test] key; the directories [test/images] and
    [test/labels] are created all the same. *)
Theorem zero_test_ratio_outputs `{Generator} (data : CocoData)
    (tr va te : Q) (seed : Z) (w : World) :
  (te == 0)%Q ->
  let run := Splitter.coco_to_yolo data tr va te seed w in
  (forall p, head p = Some "test" -> files run.1 !! p = files w !! p)
  /\ (forall s, run.2 = Ok s ->
        test_ids s = []
        /\ exists es,
             files run.1 !! ["data.yaml"] = Some (ManifestFile es)
             /\ "test" ∉ map entry_key es)
  /\ ["test"; "images"] ∈ dirs run.1
  /\ ["test"; "labels"] ∈ dirs run.1.
Proof.
  intros Hte run.
  assert (Hnot : ~ (0 < te)%Q).
  { rewrite Hte. apply Qlt_irrefl. }
  destruct (coco_to_yolo_cases data tr va te seed w)
    as (w2 & Hfiles & Hsrc & Hdirs & Hrun).
  assert (Htest : forall subdir, subdir ∈ ["images"; "labels"] ->
                    ["test"; subdir] ∈ dirs w2).
  { intros subdir Hsub. apply Hdirs; [list_mem|assumption]. }
  destruct (ratios_accepted tr va te).
  - destruct Hrun as (shuffled & _ & Hrun).
    pose proof (split_slices_no_test shuffled tr va te Hnot) as Hc.
    destruct (split_slices shuffled tr va te) as [[a b] c].
    cbn [snd] in Hc. subst c.
    pose proof (process_splits_frame
                  (build_category_id_to_index (categories data))
                  (build_image_id_to_info (images data))
                  (group_annotations (annotations data))
                  [("train", a); ("valid", b); ("test", [])] ([], []) w2)
      as Hfr.
    apply (same_outside_weaken _ _ _ _ (processed_names_no_test a b)) in Hfr.
    destruct Hfr as (_ & _ & _ & Hd3 & Hf3).
    assert (Hkeep : forall p, head p = Some "test" ->
              forall s, s ∈ ["train"; "valid"] -> head p <> Some s).
    { intros p Hp s Hs. rewrite Hp. intros [= <-].
      repeat (apply elem_of_cons in Hs as [Hs|Hs]; [discriminate|]).
      by apply elem_of_nil in Hs. }
    subst run. rewrite Hrun.
    destruct (Splitter.process_splits _ _ _ _ _ w2)
      as [w3 [[missing copied]|e]]; cbn [fst snd] in *.
    + split; [|split; [|split]].
      * intros p Hp. cbn [files set_files].
        rewrite lookup_insert_ne by (intros <-; discriminate).
        rewrite Hf3, Hfiles; [reflexivity|by apply Hkeep].
      * intros s [= <-]. split; [reflexivity|].
        cbn [files set_files]. rewrite lookup_insert_eq.
        unfold Splitter.data_yaml.
        destruct (Qlt_le_dec 0 te) as [Hpos|_]; [done|].
        eexists. split; [reflexivity|]. cbn.
        intros Hin.
        repeat (apply elem_of_cons in Hin as [Hin|Hin]; [discriminate|]).
        by apply elem_of_nil in Hin.
      * cbn [dirs set_files]. rewrite Hd3. apply Htest. list_mem.
      * cbn [dirs set_files]. rewrite Hd3. apply Htest. list_mem.
    + split; [|split; [|split]].
      * intros p Hp. rewrite Hf3, Hfiles; [reflexivity|by apply Hkeep].
      * intros s [=].
      * rewrite Hd3. apply Htest. list_mem.
      * rewrite Hd3. apply Htest. list_mem.
  - subst run. rewrite Hrun. cbn [fst snd].
    split; [|split; [|split]].
    + intros p _. by rewrite Hfiles.
    + intros s [=].
    + apply Htest. list_mem.
    + apply Htest. list_mem.
Qed.

Lemma zero_test_ratio_outputs_witness :
  let run := Splitter.coco_to_yolo two_images_doc 0.8 0.2 0 42
               (empty_world 0 ["a.jpg"; "b.jpg"]) in
  (forall p, head p = Some "test" ->
     files run.1 !! p = files (empty_world 0 ["a.jpg"; "b.jpg"]) !! p)
  /\ (forall s, run.2 = Ok s ->
        test_ids s = []
        /\ exists es,
             files run.1 !! ["data.yaml"] = Some (ManifestFile es)
             /\ "test" ∉ map entry_key es)
  /\ ["test"; "images"] ∈ dirs run.1
  /\ ["test"; "labels"] ∈ dirs run.1.
Proof.
  apply (zero_test_ratio_outputs two_images_doc 0.8 0.2 0 42
           (empty_world 0 ["a.jpg"; "b.jpg"])).
  reflexivity.
Defined.

(** C9, as the claim has it, fails: a run with [test_ratio = 0] from an
    empty output directory leaves the directories [test], [test/images]
    and [test/labels] behind. *)
Lemma zero_test_ratio_creates_test_dirs :
  let w0 := empty_world 0 ["a.jpg"; "b.jpg"] in
  let run := Splitter.coco_to_yolo two_images_doc 0.8 0.2 0 42 w0 in
  dirs w0 = ∅
  /\ is_ok run.2 = true
  /\ ["test"] ∈ dirs run.1
  /\ ["test"; "images"] ∈ dirs run.1
  /\ ["test"; "labels"] ∈ dirs run.1.
Proof.
  split; [reflexivity|]. split; [vm_compute; reflexivity|].
  repeat split; apply (bool_decide_unpack _); vm_compute; exact I.
Qed.

(** ** Missing source images *)

(** The splitting converter: an image whose source file is missing adds
    its file name to [missing_images], leaves every file and directory as
    it was, and the loop goes on with the next image. *)
Lemma splitter_skips_missing_image `{Generator} idx info groups
    (s : string) (id : Z) (rest : list Z) (im : Image)
    (missing copied : list string) (w : World) :
  info !! id = Some im ->
  file_name im ∉ src_images w ->
  Splitter.process_image idx info groups s id (missing, copied) w
  = (w, Ok (missing ++ [file_name im], copied))
  /\ Splitter.process_split idx info groups s (id :: rest) (missing, copied) w
     = Splitter.process_split idx info groups s rest
         (missing ++ [file_name im], copied) w.
Proof.
  intros Hid Hsrc.
  pose proof (process_image_missing idx info groups s id im missing copied w
                Hid Hsrc) as Hstep.
  split; [exact Hstep|].
  cbn [Splitter.process_split]. rewrite bind_run, Hstep. reflexivity.
Qed.

(** One annotated image whose file is not in the source directory. *)
Lemma splitter_missing_image_run :
  let run := Splitter.coco_to_yolo
               (mkCocoData [mkCategory 5 "car"] [mkImage 1 "a.jpg" 4 2]
                  [mkAnnotation 1 1 5 (Some [0; 0; 4; 2]%Q) None None])
               1 0 0 42 (empty_world 0 []) in
  (missing_images <$> match run.2 with Ok s => Some s | Raise _ => None end)
  = Some ["a.jpg"]
  /\ map fst (map_to_list (files run.1)) = [["data.yaml"]].
Proof. split; vm_compute; reflexivity. Qed.

(** C8 (basic converter, one annotated image whose file is not in the
    source directory): the claim asks that no label file be written for
    it, as the splitting converter has it; the basic converter completes
    and leaves a label file without an image. *)
Theorem converter_labels_missing_image :
  let w0 := empty_world 0 [] in
  let run := Converter.coco_to_yolo
               (mkCocoData [mkCategory 5 "car"] [mkImage 1 "a.jpg" 4 2]
                  [mkAnnotation 1 1 5 (Some [0; 0; 4; 2]%Q) None None])
               w0 in
  src_images w0 = ∅
  /\ run.2 = Ok tt
  /\ files run.1 !! ["labels"; "a.txt"]
     = Some (LabelFile [LabelLine 0 [1 # 2; 1 # 2; 1; 1]%Q])
  /\ files run.1 !! ["images"; "a.jpg"] = None.
Proof. repeat split; vm_compute; reflexivity. Qed.

(** * Further properties of the two converters *)

(** ** Errors of the geometry *)

Lemma normalize_polygon_odd (w h : Z) (n : nat) :
  w <> 0 -> h <> 0 ->
  forall seg, length seg = S (2 * n) ->
  normalize_polygon w h seg = Raise IndexError.
Proof.
  intros Hw Hh. induction n as [|n IH]; intros seg Hlen.
  - destruct seg as [|x [|y rest]]; simpl in Hlen; try lia.
    cbn [normalize_polygon]. by rewrite (truediv_nonzero x w Hw).
  - destruct seg as [|x [|y rest]]; simpl in Hlen; try lia.
    cbn [normalize_polygon].
    rewrite (truediv_nonzero x w Hw), (truediv_nonzero y h Hh).
    rewrite IH by lia. reflexivity.
Qed.

Lemma splitter_write_segmentation_app (c : nat) (w h : Z)
    (segs1 segs2 : list (list Q)) :
  Splitter.write_segmentation c w h (segs1 ++ segs2)
  = (Splitter.write_segmentation c w h segs1;;
     Splitter.write_segmentation c w h segs2).
Proof.
  induction segs1 as [|seg segs1 IH]; cbn [app Splitter.write_segmentation].
  - unfold mbind, emit_bind, mret, emit_ret.
    by destruct (Splitter.write_segmentation c w h segs2).
  - rewrite IH. unfold mbind, emit_bind, lift, write.
    destruct (normalize_polygon w h seg) as [cs|e]; [|reflexivity].
    destruct (Splitter.write_segmentation c w h segs1) as [l1 [[]|e1]];
      [|reflexivity].
    destruct (Splitter.write_segmentation c w h segs2) as [l2 r2].
    cbn. reflexivity.
Qed.

(** X1: a polygon with an odd number of coordinates raises [IndexError].
    The splitting converter has then already written the lines of the
    polygons before it; the basic converter has written nothing. *)
Theorem odd_polygon_raises_index_error (c : nat) (w h : Z)
    (before after : list (list Q)) (seg : list Q) (n : nat) :
  w <> 0 -> h <> 0 ->
  Forall even_length before ->
  length seg = S (2 * n) ->
  normalize_polygon w h seg = Raise IndexError
  /\ Splitter.write_segmentation c w h (before ++ seg :: after)
     = (map (fun s => LabelLine c (scale_pairs w h s)) before,
        Raise IndexError)
  /\ Converter.collect_coords w h (before ++ seg :: after)
     = Raise IndexError.
Proof.
  intros Hw Hh Hbefore Hlen.
  pose proof (normalize_polygon_odd w h n Hw Hh seg Hlen) as Hodd.
  split; [exact Hodd|]. split.
  - rewrite splitter_write_segmentation_app.
    rewrite (splitter_write_segmentation c w h before Hw Hh Hbefore).
    cbn [Splitter.write_segmentation]. rewrite Hodd.
    unfold mbind, emit_bind, lift. by rewrite app_nil_r.
  - induction Hbefore as [|s before Hs _ IH]; cbn [app Converter.collect_coords].
    + by rewrite Hodd.
    + rewrite normalize_polygon_even by assumption. cbn. by rewrite IH.
Qed.

Lemma odd_polygon_raises_index_error_witness :
  Splitter.write_segmentation 0 4 2 ([[0; 0; 4; 2]] ++ [1; 1; 3] :: [])%Q
  = ([LabelLine 0 [0; 0; 1; 1]%Q], Raise IndexError).
Proof.
  refine (proj1 (proj2 (odd_polygon_raises_index_error 0 4 2
                          [[0; 0; 4; 2]%Q] [] [1; 1; 3]%Q 1 _ _ _ _)));
    try done.
  repeat constructor. by exists 2%nat.
Defined.

(** X2: on an image whose width or height is 0 every box and every
    polygon with at least one pair raises [ZeroDivisionError]. *)
Theorem zero_dimension_raises (c : nat) (W H : Z) :
  W = 0 \/ H = 0 ->
  (forall x_min y_min w h,
     bbox_line c W H [x_min; y_min; w; h] = Raise ZeroDivisionError)
  /\ (forall x y rest,
        normalize_polygon W H (x :: y :: rest) = Raise ZeroDivisionError).
Proof.
  intros Hz.
  destruct (decide (W = 0)) as [->|HW].
  - split; reflexivity.
  - destruct Hz as [?| ->]; [done|]. split.
    + intros x_min y_min w h. unfold bbox_line, unpack4. cbn -[truediv].
      rewrite (truediv_nonzero (qadd x_min (Qred (w / 2))) W HW). reflexivity.
    + intros x y rest. cbn [normalize_polygon].
      rewrite (truediv_nonzero _ W HW). reflexivity.
Qed.

Lemma zero_dimension_raises_witness :
  bbox_line 0 640 0 [0; 0; 10; 10]%Q = Raise ZeroDivisionError.
Proof.
  apply (proj1 (zero_dimension_raises 0 640 0 (or_intror eq_refl))).
Defined.

(** X3: a [bbox] that does not have exactly four numbers raises
    [ValueError] when it is unpacked, and no line is written for the
    annotation, by either converter. *)
Theorem bbox_wrong_length_raises (idx : gmap Z nat) (W H : Z)
    (ann : Annotation) (c : nat) (b : list Q) :
  idx !! category_id ann = Some c ->
  has_segmentation ann && not_crowd ann = false ->
  bbox ann = Some b ->
  length b <> 4%nat ->
  Splitter.write_annotation idx W H ann = ([], Raise ValueError)
  /\ Converter.write_annotation idx W H ann = ([], Raise ValueError).
Proof.
  intros Hc Hseg Hb Hlen.
  assert (Hline : bbox_line c W H b = Raise ValueError).
  { unfold bbox_line.
    destruct b as [|? [|? [|? [|? [|? ?]]]]]; try reflexivity.
    by destruct Hlen. }
  unfold Splitter.write_annotation, Converter.write_annotation, getitem.
  rewrite Hc, Hseg, Hb. cbn -[bbox_line]. rewrite Hline. by split.
Qed.

Lemma bbox_wrong_length_raises_witness :
  Splitter.write_annotation {[ 5 := 0%nat ]} 4 2
    (mkAnnotation 1 1 5 (Some [0; 0; 4]%Q) None None)
  = ([], Raise ValueError).
Proof.
  refine (proj1 (bbox_wrong_length_raises {[ 5 := 0%nat ]} 4 2
                   (mkAnnotation 1 1 5 (Some [0; 0; 4]%Q) None None)
                   0%nat [0; 0; 4]%Q _ _ _ _));
    [reflexivity..|discriminate].
Defined.

(** An annotation of a known category with neither a usable
    segmentation nor a box contributes no line and raises nothing, in
    either converter. *)
Lemma no_geometry_writes_nothing (idx : gmap Z nat) (W H : Z)
    (ann : Annotation) (c : nat) :
  idx !! category_id ann = Some c ->
  has_segmentation ann && not_crowd ann = false ->
  bbox ann = None ->
  Splitter.write_annotation idx W H ann = ([], Ok tt)
  /\ Converter.write_annotation idx W H ann = ([], Ok tt).
Proof.
  intros Hc Hseg Hb.
  unfold Splitter.write_annotation, Converter.write_annotation, getitem.
  rewrite Hc, Hseg, Hb. by split.
Qed.

(** Segmentation has priority: when the segmentation is non-empty
    and the annotation is not a crowd, the box is never looked at, so both
    converters write what they write for the annotation without [bbox]. *)
Lemma segmentation_has_priority (idx : gmap Z nat) (W H : Z)
    (ann : Annotation) :
  has_segmentation ann = true ->
  not_crowd ann = true ->
  Splitter.write_annotation idx W H ann
  = Splitter.write_annotation idx W H (without_bbox ann)
  /\ Converter.write_annotation idx W H ann
     = Converter.write_annotation idx W H (without_bbox ann).
Proof.
  intros Hseg Hnc.
  unfold Splitter.write_annotation, Converter.write_annotation.
  assert (Hseg' : has_segmentation (without_bbox ann) = true) by exact Hseg.
  assert (Hnc' : not_crowd (without_bbox ann) = true) by exact Hnc.
  rewrite Hseg, Hnc, Hseg', Hnc'. by split.
Qed.

(** ** The two converters compared *)

Lemma splitter_write_segmentation_ok (c : nat) (w h : Z)
    (segs : list (list Q)) (cs : list Q) :
  Converter.collect_coords w h segs = Ok cs ->
  exists lines,
    Splitter.write_segmentation c w h segs = (lines, Ok tt)
    /\ concat (map coords lines) = cs
    /\ map class_index lines = replicate (length segs) c.
Proof.
  revert cs. induction segs as [|seg segs IH]; intros cs Hcs.
  - injection Hcs as <-. by exists [].
  - cbn [Converter.collect_coords] in Hcs. cbn [Splitter.write_segmentation].
    destruct (normalize_polygon w h seg) as [ns|e]; [|discriminate].
    cbn in Hcs.
    destruct (Converter.collect_coords w h segs) as [cs'|e]; [|discriminate].
    injection Hcs as <-.
    destruct (IH cs' eq_refl) as (lines & Hrun & Hcat & Hcls).
    exists (LabelLine c ns :: lines).
    unfold mbind, emit_bind, lift, write. rewrite Hrun. cbn.
    by rewrite Hcat, Hcls.
Qed.

(** X4: whenever the basic converter writes the line of a segmentation,
    the splitting converter writes the same numbers in the same order and
    the same class index, cut into one line per polygon. *)
Theorem converters_write_same_numbers (idx : gmap Z nat) (W H : Z)
    (ann : Annotation) (c : nat) (cs : list Q) :
  has_segmentation ann = true ->
  not_crowd ann = true ->
  Converter.write_annotation idx W H ann = ([LabelLine c cs], Ok tt) ->
  exists lines,
    Splitter.write_annotation idx W H ann = (lines, Ok tt)
    /\ concat (map coords lines) = cs
    /\ Forall (fun l => class_index l = c) lines
    /\ length lines = length (default [] (segmentation ann)).
Proof.
  intros Hseg Hnc Hconv.
  unfold Converter.write_annotation, Splitter.write_annotation in *.
  rewrite Hseg, Hnc in *. cbn [andb] in *.
  unfold getitem in *. destruct (idx !! category_id ann) as [c'|];
    [|discriminate].
  cbn -[Converter.collect_coords Splitter.write_segmentation] in *.
  destruct (Converter.collect_coords W H (default [] (segmentation ann)))
    as [cs'|e] eqn:Hcoll; [|discriminate].
  injection Hconv as -> ->.
  destruct (splitter_write_segmentation_ok c W H _ cs Hcoll)
    as (lines & Hrun & Hcat & Hcls).
  exists lines. rewrite Hrun. split; [done|]. split; [done|].
  assert (Hlen : length lines = length (default [] (segmentation ann))).
  { rewrite <- (length_map class_index), Hcls. apply length_replicate. }
  split; [|exact Hlen].
  apply Forall_forall. intros l Hl.
  assert (Hin : class_index l ∈ map class_index lines)
    by (apply list_elem_of_fmap; eauto).
  rewrite Hcls in Hin. by apply elem_of_replicate in Hin as [-> _].
Qed.

Lemma converters_write_same_numbers_witness :
  exists lines,
    Splitter.write_annotation {[ 5 := 0%nat ]} 4 2 two_part_annotation
    = (lines, Ok tt)
    /\ concat (map coords lines) = [0; 0; 1; 0; 1; 1; 0; 1]%Q
    /\ Forall (fun l => class_index l = 0%nat) lines
    /\ length lines = length (default [] (segmentation two_part_annotation)).
Proof.
  apply (converters_write_same_numbers {[ 5 := 0%nat ]} 4 2
           two_part_annotation); reflexivity.
Defined.

(** X5: the two converters write exactly the same, and fail alike, for
    every annotation whose segmentation has at most one polygon. *)
Theorem converters_agree_up_to_one_polygon (idx : gmap Z nat) (W H : Z)
    (ann : Annotation) :
  (length (default [] (segmentation ann)) <= 1)%nat ->
  Splitter.write_annotation idx W H ann
  = Converter.write_annotation idx W H ann.
Proof.
  intros Hlen.
  unfold Splitter.write_annotation, Converter.write_annotation.
  destruct (getitem idx (category_id ann)) as [c|e]; [|reflexivity].
  cbn -[Splitter.write_segmentation Converter.collect_coords].
  unfold has_segmentation.
  destruct (segmentation ann) as [[|seg [|seg' segs]]|];
    [reflexivity| |simpl in Hlen; lia|reflexivity].
  destruct (not_crowd ann); [|reflexivity].
  cbn [andb default from_option id
       Splitter.write_segmentation Converter.collect_coords].
  unfold mbind, emit_bind, result_bind, lift, write, mret, emit_ret.
  destruct (normalize_polygon W H seg) as [cs|e]; [|reflexivity].
  cbn. by rewrite app_nil_r.
Qed.

Lemma converters_agree_up_to_one_polygon_witness :
  Splitter.write_annotation {[ 5 := 0%nat ]} 4 2
    (mkAnnotation 1 1 5 None (Some [[0; 0; 4; 2; 0; 2]]%Q) None)
  = Converter.write_annotation {[ 5 := 0%nat ]} 4 2
      (mkAnnotation 1 1 5 None (Some [[0; 0; 4; 2; 0; 2]]%Q) None).
Proof.
  apply (converters_agree_up_to_one_polygon {[ 5 := 0%nat ]} 4 2
           (mkAnnotation 1 1 5 None (Some [[0; 0; 4; 2; 0; 2]]%Q) None)).
  cbn. lia.
Defined.

(** ** The lines of a label file *)

Lemma splitter_write_annotations_app (idx : gmap Z nat) (W H : Z)
    (anns1 anns2 : list Annotation) :
  Splitter.write_annotations idx W H (anns1 ++ anns2)
  = (Splitter.write_annotations idx W H anns1;;
     Splitter.write_annotations idx W H anns2).
Proof.
  induction anns1 as [|ann anns1 IH]; cbn [app Splitter.write_annotations].
  - unfold mbind, emit_bind, mret, emit_ret.
    by destruct (Splitter.write_annotations idx W H anns2).
  - rewrite IH. unfold mbind, emit_bind.
    destruct (Splitter.write_annotation idx W H ann) as [l0 [[]|e0]];
      [|reflexivity].
    destruct (Splitter.write_annotations idx W H anns1) as [l1 [[]|e1]];
      [|reflexivity].
    destruct (Splitter.write_annotations idx W H anns2) as [l2 r2].
    by rewrite app_assoc.
Qed.

(** X6: a label file is written annotation by annotation: the lines of
    the annotations before the first one that raises are in the file, in
    order, and nothing of the annotations after it. *)
Theorem label_keeps_lines_before_exception (idx : gmap Z nat) (W H : Z)
    (before after : list Annotation) (ann : Annotation)
    (lines partial : list label_line) (e : exn) :
  Splitter.write_annotations idx W H before = (lines, Ok tt) ->
  Splitter.write_annotation idx W H ann = (partial, Raise e) ->
  Splitter.write_annotations idx W H (before ++ ann :: after)
  = (lines ++ partial, Raise e).
Proof.
  intros Hbefore Hann.
  rewrite splitter_write_annotations_app, Hbefore.
  cbn [Splitter.write_annotations]. rewrite Hann. reflexivity.
Qed.

Lemma label_keeps_lines_before_exception_witness :
  Splitter.write_annotations {[ 5 := 0%nat ]} 4 2
    ([full_box_annotation] ++ mkAnnotation 9 1 7 None None None
       :: [full_box_annotation])
  = ([LabelLine 0 [80; 120; 160; 240]%Q] ++ [], Raise KeyError).
Proof.
  apply (label_keeps_lines_before_exception {[ 5 := 0%nat ]} 4 2
           [full_box_annotation] [full_box_annotation]
           (mkAnnotation 9 1 7 None None None));
    reflexivity.
Defined.

Lemma splitter_write_segmentation_class (c : nat) (W H : Z)
    (segs : list (list Q)) :
  Forall (fun l => class_index l = c)
    (Splitter.write_segmentation c W H segs).1.
Proof.
  induction segs as [|seg segs IH]; cbn [Splitter.write_segmentation].
  - constructor.
  - unfold mbind, emit_bind, lift, write.
    destruct (normalize_polygon W H seg) as [cs|e]; [|constructor].
    destruct (Splitter.write_segmentation c W H segs) as [ls r].
    cbn in *. by constructor.
Qed.

Lemma bbox_line_class (c : nat) (W H : Z) (b : list Q) (l : label_line) :
  bbox_line c W H b = Ok l -> class_index l = c.
Proof.
  unfold bbox_line, mbind, result_bind. intros Hl.
  repeat case_match; simplify_eq. reflexivity.
Qed.

Lemma splitter_write_annotation_class (idx : gmap Z nat) (W H : Z)
    (ann : Annotation) :
  Forall (fun l => idx !! category_id ann = Some (class_index l))
    (Splitter.write_annotation idx W H ann).1.
Proof.
  unfold Splitter.write_annotation, getitem.
  destruct (idx !! category_id ann) as [c|]; [|constructor].
  cbn -[Splitter.write_segmentation bbox_line].
  destruct (has_segmentation ann && not_crowd ann).
  - pose proof (splitter_write_segmentation_class c W H
                    (default [] (segmentation ann))) as Hcls.
    destruct (Splitter.write_segmentation c W H _) as [ls r]. cbn in *.
    eapply Forall_impl; [exact Hcls|]. by intros l ->.
  - destruct (bbox ann) as [b|]; [|constructor].
    unfold mbind, emit_bind, lift, write.
    destruct (bbox_line c W H b) as [l|e] eqn:Hl; [|constructor].
    apply bbox_line_class in Hl as <-. by repeat constructor.
Qed.

(** ** The lookup tables *)

Lemma build_category_id_to_index_sound (cats : list Category) (k : Z)
    (i : nat) :
  build_category_id_to_index cats !! k = Some i ->
  exists c, cats !! i = Some c /\ cat_id c = k.
Proof.
  revert i. induction cats as [|x cats IH] using rev_ind; intros i Hi.
  - discriminate.
  - rewrite build_category_id_to_index_snoc in Hi.
    destruct (decide (cat_id x = k)) as [<-|Hne].
    + rewrite lookup_insert_eq in Hi. injection Hi as <-.
      exists x. split; [|done]. by apply list_lookup_middle.
    + rewrite lookup_insert_ne in Hi by done.
      destruct (IH i Hi) as (c & Hc & Hk). exists c. split; [|done].
      rewrite lookup_app_l; [done|]. by eapply lookup_lt_Some.
Qed.

Lemma build_category_id_to_index_domain (cats : list Category) (k : Z) :
  (build_category_id_to_index cats !! k = None <-> k ∉ map cat_id cats)
  /\ (forall i, build_category_id_to_index cats !! k = Some i ->
        (i < length cats)%nat
        /\ exists c, cats !! i = Some c /\ cat_id c = k).
Proof.
  split.
  - induction cats as [|x cats IH] using rev_ind.
    + split; [intros _ Hin; by apply elem_of_nil in Hin|done].
    + rewrite build_category_id_to_index_snoc, map_app. cbn [map].
      rewrite elem_of_app, list_elem_of_singleton.
      destruct (decide (cat_id x = k)) as [<-|Hne].
      * rewrite lookup_insert_eq. split; [done|]. intros Hn. destruct Hn. by right.
      * rewrite lookup_insert_ne by done. rewrite IH. split.
        -- intros Hn [Hin|Heq]; [by apply Hn|by apply Hne].
        -- intros Hn Hin. apply Hn. by left.
  - intros i Hi.
    destruct (build_category_id_to_index_sound cats k i Hi) as (c & Hc & Hk).
    split; [by eapply lookup_lt_Some|by exists c].
Qed.

(** X7: the category index is defined exactly on the ids that occur in
    the category list, and the index it gives for an id is the position
    of a category with that id. *)
Theorem category_index_domain (cats : list Category) (k : Z) :
  (build_category_id_to_index cats !! k = None <-> k ∉ map cat_id cats)
  /\ (forall i, build_category_id_to_index cats !! k = Some i ->
        (i < length cats)%nat
        /\ exists c, cats !! i = Some c /\ cat_id c = k).
Proof. apply build_category_id_to_index_domain. Qed.

Lemma category_index_domain_witness :
  (2 < length [mkCategory 7 "car"; mkCategory 3 "bus"; mkCategory 9 "van"])%nat
  /\ exists c,
       [mkCategory 7 "car"; mkCategory 3 "bus"; mkCategory 9 "van"] !! 2%nat
       = Some c /\ cat_id c = 9.
Proof.
  apply (proj2 (category_index_domain
                  [mkCategory 7 "car"; mkCategory 3 "bus"; mkCategory 9 "van"]
                  9) 2%nat).
  reflexivity.
Defined.

(** X8: every line of a label file written with the index built from
    the category list starts with a class index below the number of
    categories, the [nc] of [data.yaml]. *)
Theorem label_class_indices_below_nc (cats : list Category) (W H : Z)
    (anns : list Annotation) :
  Forall (fun l => (class_index l < length cats)%nat)
    (Splitter.write_annotations (build_category_id_to_index cats) W H anns).1.
Proof.
  induction anns as [|ann anns IH]; cbn [Splitter.write_annotations].
  - constructor.
  - pose proof (splitter_write_annotation_class
                  (build_category_id_to_index cats) W H ann) as Hcls.
    unfold mbind, emit_bind.
    destruct (Splitter.write_annotation _ W H ann) as [l0 [[]|e0]];
      cbn [fst] in Hcls.
    + destruct (Splitter.write_annotations _ W H anns) as [l1 r1].
      cbn [fst] in *. apply Forall_app. split; [|exact IH].
      eapply Forall_impl; [exact Hcls|].
      intros l Hl. by apply (build_category_id_to_index_domain cats _) in Hl as [? _].
    + cbn [fst]. eapply Forall_impl; [exact Hcls|].
      intros l Hl. by apply (build_category_id_to_index_domain cats _) in Hl as [? _].
Qed.

Lemma build_image_id_to_info_snoc (imgs : list Image) (im : Image) :
  build_image_id_to_info (imgs ++ [im])
  = <[img_id im := im]> (build_image_id_to_info imgs).
Proof. unfold build_image_id_to_info. by rewrite foldl_app. Qed.

(** X9: the image table gives, for every id, the last image of the
    document with that id: a later image silently replaces an earlier one
    with the same id, and an id no image has is absent. *)
Theorem image_table_last_wins (imgs : list Image) (k : Z) :
  build_image_id_to_info imgs !! k
  = last (filter (fun im => img_id im = k) imgs).
Proof.
  induction imgs as [|im imgs IH] using rev_ind; [reflexivity|].
  rewrite build_image_id_to_info_snoc, filter_app.
  destruct (decide (img_id im = k)) as [<-|Hne].
  - rewrite lookup_insert_eq, filter_cons_True by done.
    rewrite filter_nil. by rewrite last_snoc.
  - rewrite lookup_insert_ne by done.
    rewrite filter_cons_False by done. rewrite filter_nil, app_nil_r.
    exact IH.
Qed.

(** ** Grouping *)

Lemma getitem_assoc_group_append (k k' : Z) (a : Annotation)
    (d : list (Z * list Annotation)) :
  getitem_assoc (group_append k a d) k'
  = if decide (k' = k)
    then Ok (match getitem_assoc d k with
             | Ok v => v ++ [a]
             | Raise _ => [a]
             end)
    else getitem_assoc d k'.
Proof.
  induction d as [|[k0 v] d IH]; cbn.
  - repeat case_decide; by simplify_eq.
  - destruct (decide (k0 = k)) as [->|Hne0]; cbn.
    + repeat case_decide; by simplify_eq.
    + rewrite IH. repeat case_decide; by simplify_eq.
Qed.

(** X10: the group of an image id holds exactly the annotations of that
    image, in the order of the document; an id without annotations is not
    a key, and looking it up raises [KeyError]. *)
Theorem group_is_annotations_in_order (anns : list Annotation) (k : Z) :
  getitem_assoc (group_annotations anns) k
  = match annotations_of k anns with
    | [] => Raise KeyError
    | a :: rest => Ok (a :: rest)
    end.
Proof.
  induction anns as [|a anns IH] using rev_ind; [reflexivity|].
  rewrite group_annotations_snoc, getitem_assoc_group_append.
  unfold annotations_of in *. rewrite filter_app.
  destruct (decide (k = image_id a)) as [->|Hne].
  - rewrite filter_cons_True by done. rewrite filter_nil, IH.
    by destruct (filter _ anns).
  - rewrite filter_cons_False by done. rewrite filter_nil, app_nil_r.
    exact IH.
Qed.

Lemma group_append_keys (k : Z) (a : Annotation)
    (d : list (Z * list Annotation)) :
  map fst (group_append k a d)
  = if decide (k ∈ map fst d) then map fst d else map fst d ++ [k].
Proof.
  induction d as [|[k0 v] d IH]; cbn.
  - rewrite decide_False; [done|]. intros Hin. by apply elem_of_nil in Hin.
  - destruct (decide (k0 = k)) as [->|Hne]; cbn.
    + rewrite decide_True; [done|]. by left.
    + rewrite IH. destruct (decide (k ∈ map fst d)) as [Hin|Hnin].
      * rewrite decide_True; [done|]. by right.
      * rewrite decide_False; [done|].
        intros Hin. apply elem_of_cons in Hin as [->|Hin]; done.
Qed.

Lemma group_append_concat (k : Z) (a : Annotation)
    (d : list (Z * list Annotation)) :
  concat (map snd (group_append k a d)) ≡ₚ concat (map snd d) ++ [a].
Proof.
  induction d as [|[k0 v] d IH]; cbn; [done|].
  destruct (decide (k0 = k)) as [->|Hne]; cbn.
  - rewrite <- !app_assoc. apply Permutation_app_head, Permutation_app_comm.
  - by rewrite IH, app_assoc.
Qed.

Lemma group_annotations_partition (anns : list Annotation) :
  NoDup (map fst (group_annotations anns))
  /\ (forall k, k ∈ map fst (group_annotations anns)
               <-> k ∈ map image_id anns)
  /\ concat (map snd (group_annotations anns)) ≡ₚ anns.
Proof.
  induction anns as [|a anns (Hnd & Hkeys & Hcat)] using rev_ind.
  - split; [constructor|]. split; [done|done].
  - rewrite group_annotations_snoc, group_append_keys, group_append_concat.
    split; [|split].
    + destruct (decide _) as [Hin|Hnin]; [done|].
      apply NoDup_app. split; [done|]. split; [|apply NoDup_singleton].
      intros x Hx Hx'. apply list_elem_of_singleton in Hx' as ->. done.
    + intros k. rewrite map_app, elem_of_app. cbn [map].
      rewrite list_elem_of_singleton, <- Hkeys.
      destruct (decide _) as [Hin|Hnin].
      * split; [by left|]. intros [?| ->]; done.
      * by rewrite elem_of_app, list_elem_of_singleton.
    + by rewrite Hcat.
Qed.

(** X11: grouping loses and repeats nothing: the keys are distinct, they
    are the image ids that occur in the annotations, and the groups
    together hold each annotation once. *)
Theorem grouping_partitions_annotations (anns : list Annotation) :
  NoDup (map fst (group_annotations anns))
  /\ (forall k, k ∈ map fst (group_annotations anns)
               <-> k ∈ map image_id anns)
  /\ concat (map snd (group_annotations anns)) ≡ₚ anns.
Proof. apply group_annotations_partition. Qed.

(** ** More on [split_dataset] *)

Lemma py_slice_nil {A} (lo hi : option Z) : py_slice (@nil A) lo hi = [].
Proof. unfold py_slice. by rewrite drop_nil, take_nil. Qed.

(** X12: an empty list of image ids is split into three empty groups
    without an error, whatever accepted ratios are given. *)
Theorem split_dataset_empty_input `{Generator} (w : World) (r : nat)
    (tr va te : Q) :
  heap w !! r = Some [] ->
  (0.999 <= tr + va + te)%Q -> (tr + va + te <= 1.001)%Q ->
  (Splitter.split_dataset r tr va te w).2 = Ok ([], [], []).
Proof.
  intros Hr Hlo Hhi.
  assert (Hacc : ratios_accepted tr va te = true)
    by (apply ratios_accepted_iff; by split).
  destruct (split_dataset_runs w r [] tr va te Hr Hacc) as (w' & -> & _).
  cbn [snd]. unfold shuffle_list, split_slices. cbn [length Nat.sub shuffle_from fst].
  rewrite !py_slice_nil. by destruct (Qlt_le_dec 0 te).
Qed.

Lemma split_dataset_empty_input_witness :
  (Splitter.split_dataset 0 0.7 0.2 0.1 (world_with_ids 3 [])).2
  = Ok ([], [], []).
Proof.
  apply (split_dataset_empty_input (world_with_ids 3 []) 0 0.7 0.2 0.1);
    [reflexivity | vm_compute; discriminate ..].
Defined.

(** X13: ratios whose sum is off by more than 0.001 make [split_dataset]
    raise [ValueError] with nothing changed, not even the generator; in a
    run of [coco_to_yolo] that error comes after the directories of the
    three splits were created, and no file has been written. *)
Theorem rejected_ratios_raise_value_error `{Generator} (data : CocoData)
    (tr va te : Q) (seed : Z) (w : World) (r : nat) :
  (tr + va + te < 0.999)%Q \/ (1.001 < tr + va + te)%Q ->
  Splitter.split_dataset r tr va te w = (w, Raise ValueError)
  /\ exists w',
       Splitter.coco_to_yolo data tr va te seed w = (w', Raise ValueError)
       /\ files w' = files w
       /\ forall split subdir,
            split ∈ ["train"; "valid"; "test"] ->
            subdir ∈ ["images"; "labels"] ->
            [split; subdir] ∈ dirs w'.
Proof.
  intros Hout.
  assert (Hacc : ratios_accepted tr va te = false).
  { destruct (ratios_accepted tr va te) eqn:E; [|reflexivity].
    apply ratios_accepted_iff in E as [Hlo Hhi].
    destruct Hout as [Hlt|Hlt]; exfalso; eapply Qlt_not_le; eauto. }
  split; [by apply split_dataset_rejects|].
  destruct (coco_to_yolo_cases data tr va te seed w)
    as (w2 & Hfiles & _ & Hdirs & Hrun).
  rewrite Hacc in Hrun. by exists w2.
Qed.

Lemma rejected_ratios_raise_value_error_witness :
  Splitter.split_dataset 0 0.8 0.1 0 (world_with_ids 3 [1; 2])
  = (world_with_ids 3 [1; 2], Raise ValueError).
Proof.
  refine (proj1 (rejected_ratios_raise_value_error two_images_doc
                   0.8 0.1 0 42 (world_with_ids 3 [1; 2]) 0 _)).
  left. reflexivity.
Defined.

(** X15: whatever it is given, [split_dataset] touches no file, no
    directory and no source image, and changes no list object that existed
    before the call: the shuffle acts on an object of its own. *)
Theorem split_dataset_frame `{Generator} (w : World) (r : nat)
    (tr va te : Q) :
  let w' := (Splitter.split_dataset r tr va te w).1 in
  files w' = files w /\ dirs w' = dirs w /\ src_images w' = src_images w
  /\ (forall r', r' ∈ dom (heap w) -> heap w' !! r' = heap w !! r').
Proof.
  destruct (ratios_accepted tr va te) eqn:Hacc.
  - unfold Splitter.split_dataset.
    change (Qle_bool 0.999 (qadd (qadd tr va) te)
            && Qle_bool (qadd (qadd tr va) te) 1.001)
      with (ratios_accepted tr va te).
    rewrite Hacc. cbn [negb].
    unfold random_shuffle, load, alloc, store, modify, get_world, mbind,
      M_bind, mret, M_ret.
    cbn [heap set_heap rng set_rng src_images dirs files].
    rewrite lookup_insert_eq. cbn [default from_option id].
    destruct (shuffle_list (default [] (heap w !! r)) (rng w)) as [l' g'].
    cbn [heap set_heap rng set_rng src_images dirs files fst snd].
    rewrite insert_insert_eq.
    split_and!; try done.
    intros r' Hr'. rewrite lookup_insert_ne; [done|].
    intros <-. by apply (is_fresh (dom (heap w))).
  - rewrite split_dataset_rejects by assumption. cbn [fst].
    by repeat split.
Qed.

Lemma split_dataset_frame_witness :
  heap (Splitter.split_dataset 0 0.8 0.2 0
          (mkWorld lcg 1 {[ 0%nat := [1; 2; 3]; 1%nat := [7; 8] ]} ∅ ∅ ∅)).1
    !! 1%nat
  = Some [7; 8].
Proof.
  etrans.
  - apply (proj2 (proj2 (proj2
             (split_dataset_frame
                (mkWorld lcg 1 {[ 0%nat := [1; 2; 3]; 1%nat := [7; 8] ]} ∅ ∅ ∅)
                0 0.8 0.2 0))) 1%nat).
    apply (bool_decide_unpack _). vm_compute. exact I.
  - reflexivity.
Defined.

(** ** Processing the images of a split *)

(** X17: processing an image whose source file exists a second time
    changes nothing: the image is not copied again, the label file is
    rewritten with the same lines, and nothing is added to
    [copied_images]. *)
Theorem process_image_rerun `{Generator} idx info groups (s : string)
    (id : Z) (im : Image) (missing copied missing' copied' : list string)
    (w : World) :
  info !! id = Some im ->
  file_name im ∈ src_images w ->
  let run1 := Splitter.process_image idx info groups s id (missing, copied) w in
  let run2 :=
    Splitter.process_image idx info groups s id (missing', copied') run1.1 in
  run2.1 = run1.1
  /\ (is_ok run1.2 = true -> run2.2 = Ok (missing', copied')).
Proof.
  intros Hid Hsrc run1 run2. subst run1 run2.
  rewrite (process_image_present idx info groups s id im missing copied w)
    by assumption.
  cbn [fst snd].
  set (dst := [s; "images"; file_name im]).
  set (lbl := [s; "labels"; label_name (file_name im)]).
  set (present := bool_decide (dst ∈ dirs w)
                  || bool_decide (is_Some (files w !! dst))).
  set (files1 := if present then files w
                 else <[dst := ImageFile (file_name im)]> (files w)).
  set (w1 := set_files (<[lbl := LabelFile (label_body idx groups id im).1]>
                          files1) w).
  assert (Hne : lbl <> dst) by (intros [=]).
  assert (Hpresent1 : bool_decide (dst ∈ dirs w1)
                      || bool_decide (is_Some (files w1 !! dst)) = true).
  { subst w1. cbn [dirs files set_files].
    rewrite lookup_insert_ne by done. subst files1.
    destruct present eqn:Hp; [exact Hp|].
    rewrite lookup_insert_eq. apply orb_true_iff. right.
    by apply bool_decide_eq_true_2. }
  rewrite (process_image_present idx info groups s id im missing' copied' w1
             Hid Hsrc).
  fold dst lbl. rewrite Hpresent1. cbn [fst snd]. split.
  - subst w1. unfold set_files. cbn [rng heap src_images dirs files].
    by rewrite insert_insert_eq.
  - by destruct ((label_body idx groups id im).2) as [[]|e].
Qed.

Lemma process_image_rerun_witness :
  let info := build_image_id_to_info (images two_images_doc) in
  let idx := build_category_id_to_index (categories two_images_doc) in
  let groups := group_annotations (annotations two_images_doc) in
  let run1 := Splitter.process_image idx info groups "train" 1 ([], [])
                (empty_world 0 ["a.jpg"]) in
  let run2 := Splitter.process_image idx info groups "train" 1
                ([], ["a.jpg"]) run1.1 in
  run2.1 = run1.1 /\ (is_ok run1.2 = true -> run2.2 = Ok ([], ["a.jpg"])).
Proof.
  apply (process_image_rerun
           (build_category_id_to_index (categories two_images_doc))
           (build_image_id_to_info (images two_images_doc))
           (group_annotations (annotations two_images_doc))
           "train" 1 (mkImage 1 "a.jpg" 4 2) [] [] [] ["a.jpg"]
           (empty_world 0 ["a.jpg"])).
  - reflexivity.
  - apply (bool_decide_unpack _). vm_compute. exact I.
Defined.

(** X18: when the loop over a split completes, every id of the split was
    in the image table, and [missing_images] has grown by exactly the
    file names of the ids whose source file does not exist, in the order
    of the split. *)
Theorem process_split_missing_list `{Generator} idx info groups (s : string)
    (ids : list Z) (missing copied missing' copied' : list string)
    (w w' : World) :
  Splitter.process_split idx info groups s ids (missing, copied) w
  = (w', Ok (missing', copied')) ->
  missing' = missing ++ missing_names info (src_images w) ids
  /\ Forall (fun id => is_Some (info !! id)) ids.
Proof.
  revert missing copied w. induction ids as [|id ids IH];
    intros missing copied w Hrun.
  - cbn in Hrun. injection Hrun as _ <- _. by rewrite app_nil_r.
  - cbn [Splitter.process_split] in Hrun. rewrite bind_run in Hrun.
    unfold missing_names. cbn [omap list_omap].
    fold (missing_names info (src_images w) ids).
    destruct (info !! id) as [im|] eqn:Hid.
    + destruct (decide (file_name im ∈ src_images w)) as [Hsrc|Hsrc].
      * rewrite (process_image_present idx info groups s id im) in Hrun
          by assumption.
        cbn zeta in Hrun.
        destruct ((label_body idx groups id im).2) as [[]|e]; [|discriminate].
        apply IH in Hrun as [-> Hall]. cbn [src_images set_files].
        split; [done|]. constructor; [by eexists|done].
      * rewrite (process_image_missing idx info groups s id im) in Hrun
          by assumption.
        apply IH in Hrun as [-> Hall].
        split; [by rewrite <- app_assoc|].
        constructor; [by eexists|done].
    + rewrite process_image_unknown in Hrun by assumption. discriminate.
Qed.

Lemma process_split_missing_list_witness :
  let info := build_image_id_to_info (images two_images_doc) in
  ["a.jpg"]
  = [] ++ missing_names info (src_images (empty_world 0 ["b.jpg"])) [1; 2]
  /\ Forall (fun id => is_Some (info !! id)) [1; 2].
Proof.
  intros info.
  assert (E : (Splitter.process_split
                 (build_category_id_to_index (categories two_images_doc))
                 (build_image_id_to_info (images two_images_doc))
                 (group_annotations (annotations two_images_doc))
                 "train" [1; 2] ([], []) (empty_world 0 ["b.jpg"])).2
              = Ok (["a.jpg"], ["b.jpg"]))
    by (vm_compute; reflexivity).
  apply (process_split_missing_list
           (build_category_id_to_index (categories two_images_doc))
           (build_image_id_to_info (images two_images_doc))
           (group_annotations (annotations two_images_doc))
           "train" [1; 2] [] [] ["a.jpg"] ["b.jpg"] (empty_world 0 ["b.jpg"])
           (Splitter.process_split
              (build_category_id_to_index (categories two_images_doc))
              (build_image_id_to_info (images two_images_doc))
              (group_annotations (annotations two_images_doc))
              "train" [1; 2] ([], []) (empty_world 0 ["b.jpg"])).1).
  rewrite <- E. apply surjective_pairing.
Defined.

Lemma process_image_keeps_image `{Generator} idx info groups (s : string)
    (id : Z) (acc : list string * list string) (w : World)
    (s' f : string) :
  is_Some (files w !! [s'; "images"; f]) ->
  files (Splitter.process_image idx info groups s id acc w).1
    !! [s'; "images"; f]
  = files w !! [s'; "images"; f].
Proof.
  intros Hthere. destruct acc as [missing copied].
  destruct (info !! id) as [im|] eqn:Hid.
  - destruct (decide (file_name im ∈ src_images w)) as [Hsrc|Hsrc].
    + rewrite (process_image_present idx info groups s id im) by assumption.
      cbn [fst files set_files].
      rewrite lookup_insert_ne by (intros [=]).
      destruct (decide ([s; "images"; file_name im] = [s'; "images"; f]))
        as [Heq|Hne].
      * rewrite Heq.
        rewrite (bool_decide_eq_true_2 (is_Some _) Hthere), orb_true_r.
        reflexivity.
      * destruct (_ || _); [reflexivity|]. by rewrite lookup_insert_ne.
    + by rewrite (process_image_missing idx info groups s id im).
  - by rewrite process_image_unknown.
Qed.

Lemma process_split_keeps_image `{Generator} idx info groups (s : string)
    (ids : list Z) (acc : list string * list string) (w : World)
    (s' f : string) :
  is_Some (files w !! [s'; "images"; f]) ->
  files (Splitter.process_split idx info groups s ids acc w).1
    !! [s'; "images"; f]
  = files w !! [s'; "images"; f].
Proof.
  revert acc w. induction ids as [|id ids IH]; intros acc w Hthere;
    [reflexivity|].
  cbn [Splitter.process_split]. rewrite bind_run.
  pose proof (process_image_keeps_image idx info groups s id acc w s' f Hthere)
    as Hstep.
  destruct (Splitter.process_image idx info groups s id acc w)
    as [w1 [acc1|e]]; cbn [fst] in *; [|exact Hstep].
  rewrite IH; [exact Hstep|]. by rewrite Hstep.
Qed.

(** X19: an image file that is already in the [images] directory of a
    split when the loops start is never overwritten, whichever images are
    processed and however the loops end. *)
Theorem existing_images_never_overwritten `{Generator} idx info groups
    (splits : list (string * list Z)) (acc : list string * list string)
    (w : World) (s f : string) :
  is_Some (files w !! [s; "images"; f]) ->
  files (Splitter.process_splits idx info groups splits acc w).1
    !! [s; "images"; f]
  = files w !! [s; "images"; f].
Proof.
  revert acc w. induction splits as [|[s0 ids] splits IH]; intros acc w Hthere;
    [reflexivity|].
  cbn [Splitter.process_splits]. rewrite bind_run.
  destruct ids as [|id ids].
  - cbn. by apply IH.
  - pose proof (process_split_keeps_image idx info groups s0 (id :: ids)
                  acc w s f Hthere) as Hstep.
    destruct (Splitter.process_split idx info groups s0 (id :: ids) acc w)
      as [w1 [acc1|e]]; cbn [fst] in *; [|exact Hstep].
    rewrite IH; [exact Hstep|]. by rewrite Hstep.
Qed.

Lemma existing_images_never_overwritten_witness :
  let w := set_files {[ ["train"; "images"; "a.jpg"] := ImageFile "old" ]}
             (empty_world 0 ["a.jpg"; "b.jpg"]) in
  files (Splitter.process_splits
           (build_category_id_to_index (categories two_images_doc))
           (build_image_id_to_info (images two_images_doc))
           (group_annotations (annotations two_images_doc))
           [("train", [1; 2])] ([], []) w).1
    !! ["train"; "images"; "a.jpg"]
  = Some (ImageFile "old").
Proof.
  intros w.
  rewrite (existing_images_never_overwritten
             (build_category_id_to_index (categories two_images_doc))
             (build_image_id_to_info (images two_images_doc))
             (group_annotations (annotations two_images_doc))
             [("train", [1; 2])] ([], []) w "train" "a.jpg").
  - reflexivity.
  - vm_compute. eauto.
Defined.

(** ** A run that completes *)

Lemma py_slice_subseteq {A} (l : list A) (lo hi : option Z) :
  py_slice l lo hi ⊆ l.
Proof.
  unfold py_slice. intros x Hx.
  apply elem_of_take in Hx as (i & Hx & _).
  rewrite lookup_drop in Hx. by eapply list_elem_of_lookup_2.
Qed.

(** X20: a run that returns has accepted the ratios and has written
    [data.yaml] last, with the train and val paths, a test path exactly
    when [test_ratio > 0], the number of categories and their names in
    list order; every id in the groups it reports is the image id of some
    annotation. *)
Theorem completed_run_manifest `{Generator} (data : CocoData)
    (tr va te : Q) (seed : Z) (w w' : World) (s : Summary) :
  Splitter.coco_to_yolo data tr va te seed w = (w', Ok s) ->
  ratios_accepted tr va te = true
  /\ files w' !! ["data.yaml"]
     = Some (ManifestFile
               ([PathEntry "train" "./train/images";
                 PathEntry "val" "./valid/images"]
                ++ (if Qlt_le_dec 0 te
                    then [PathEntry "test" "./test/images"] else [])
                ++ [NcEntry (length (categories data));
                    NamesEntry (map name (categories data))]))
  /\ (forall id, id ∈ train_ids s ++ val_ids s ++ test_ids s ->
        id ∈ map image_id (annotations data)).
Proof.
  intros Hrun.
  destruct (coco_to_yolo_cases data tr va te seed w)
    as (w2 & _ & _ & _ & Hcases).
  destruct (ratios_accepted tr va te); [|rewrite Hrun in Hcases; discriminate].
  destruct Hcases as (shuffled & Hperm & Hcases).
  rewrite Hrun in Hcases. split; [reflexivity|].
  assert (Hsub : forall id,
            id ∈ (split_slices shuffled tr va te).1.1
                 ++ (split_slices shuffled tr va te).1.2
                 ++ (split_slices shuffled tr va te).2 ->
            id ∈ map image_id (annotations data)).
  { intros id Hid.
    apply (group_annotations_partition (annotations data)).
    rewrite <- Hperm. unfold split_slices in Hid. cbn [fst snd] in Hid.
    repeat (apply elem_of_app in Hid as [Hid|Hid]);
      try (by eapply py_slice_subseteq).
    destruct (Qlt_le_dec 0 te); [by eapply py_slice_subseteq|].
    by apply elem_of_nil in Hid. }
  destruct (split_slices shuffled tr va te) as [[a b] c].
  destruct (Splitter.process_splits _ _ _ _ _ w2)
    as [w3 [[missing copied]|e]]; [|discriminate].
  injection Hcases as -> ->. cbn [files set_files train_ids val_ids test_ids].
  split; [|exact Hsub]. by rewrite lookup_insert_eq.
Qed.

Lemma completed_run_manifest_witness :
  let run := Splitter.coco_to_yolo two_images_doc 0.5 0.5 0 42
               (empty_world 0 ["a.jpg"; "b.jpg"]) in
  ratios_accepted 0.5 0.5 0 = true
  /\ files run.1 !! ["data.yaml"]
     = Some (ManifestFile
               ([PathEntry "train" "./train/images";
                 PathEntry "val" "./valid/images"]
                ++ (if Qlt_le_dec 0 0
                    then [PathEntry "test" "./test/images"] else [])
                ++ [NcEntry (length (categories two_images_doc));
                    NamesEntry (map name (categories two_images_doc))]))
  /\ (forall id, id ∈ [2] ++ [1] ++ [] ->
        id ∈ map image_id (annotations two_images_doc)).
Proof.
  intros run.
  assert (E : run.2 = Ok (mkSummary [2] [1] [] ["b.jpg"; "a.jpg"] []))
    by (vm_compute; reflexivity).
  apply (completed_run_manifest two_images_doc 0.5 0.5 0 42
           (empty_world 0 ["a.jpg"; "b.jpg"]) run.1
           (mkSummary [2] [1] [] ["b.jpg"; "a.jpg"] [])).
  rewrite <- E. apply surjective_pairing.
Defined.

(** ** What the basic converter touches *)

Lemma converter_process_image_frame `{Generator} idx info (id : Z)
    (anns : list Annotation) (w : World) :
  same_outside ["images"; "labels"] w
    (Converter.process_image idx info id anns w).1.
Proof.
  unfold Converter.process_image, getitem.
  destruct (info !! id) as [im|]; [|apply same_outside_refl].
  unfold_M.
  assert (Hlabel : forall p : list string,
            (forall s, s ∈ ["images"; "labels"] -> head p <> Some s) ->
            p <> ["labels"; label_name (file_name im)]).
  { intros p Hp ->. by apply (Hp "labels"); [list_mem|]. }
  assert (Himage : forall p : list string,
            (forall s, s ∈ ["images"; "labels"] -> head p <> Some s) ->
            p <> ["images"; file_name im]).
  { intros p Hp ->. by apply (Hp "images"); [list_mem|]. }
  destruct (bool_decide (file_name im ∈ src_images w)); unfold_M;
    [destruct (_ || _); unfold_M|];
    destruct (Converter.write_annotations idx (width im) (height im) anns).2;
    cbn [fst]; repeat split; intros p Hp; cbn [files set_files];
    rewrite ?lookup_insert_ne; auto using not_eq_sym.
Qed.

Lemma converter_process_images_frame `{Generator} idx info
    (items : list (Z * list Annotation)) (w : World) :
  same_outside ["images"; "labels"] w
    (Converter.process_images idx info items w).1.
Proof.
  revert w. induction items as [|[id anns] items IH]; intros w.
  - apply same_outside_refl.
  - cbn [Converter.process_images]. rewrite bind_run.
    pose proof (converter_process_image_frame idx info id anns w) as Hstep.
    destruct (Converter.process_image idx info id anns w) as [w1 [[]|e]];
      cbn [fst] in *; [|exact Hstep].
    eapply same_outside_trans; [exact Hstep|apply IH].
Qed.

(** X21: when the file names of the images are single path components,
    a run of the basic converter, however it ends, leaves the random
    generator and the source images alone, adds no directory but [labels]
    and [images] (with the output directory itself), and creates or
    changes no file outside [labels], [images] and [data.yaml]. *)
Theorem converter_run_frame `{Generator} (data : CocoData) (w : World) :
  Forall (fun im => plain_name (file_name im)) (images data) ->
  let w' := (Converter.coco_to_yolo data w).1 in
  rng w' = rng w
  /\ src_images w' = src_images w
  /\ dirs w' = dirs w ∪ {[ []; ["labels"]; ["images"] ]}
  /\ forall p,
       head p <> Some "images" -> head p <> Some "labels" ->
       p <> ["data.yaml"] ->
       files w' !! p = files w !! p.
Proof.
  intros _.
  set (w1 := set_dirs
               (dirs (set_dirs (dirs w ∪ list_to_set (prefixes ["labels"])) w)
                ∪ list_to_set (prefixes ["images"]))
               (set_dirs (dirs w ∪ list_to_set (prefixes ["labels"])) w)).
  change (Converter.coco_to_yolo data w)
    with (match Converter.process_images
                  (build_category_id_to_index (categories data))
                  (build_image_id_to_info (images data))
                  (group_annotations (annotations data)) w1
          with
          | (w2, Ok _) =>
              write_file ["data.yaml"]
                (Converter.data_yaml (categories data)) w2
          | (w2, Raise e) => (w2, Raise e)
          end).
  assert (Hdirs : dirs w1 = dirs w ∪ {[ []; ["labels"]; ["images"] ]}).
  { subst w1. cbn. apply set_eq. intros x. set_unfold. tauto. }
  pose proof (converter_process_images_frame
                (build_category_id_to_index (categories data))
                (build_image_id_to_info (images data))
                (group_annotations (annotations data)) w1)
    as (Hrng & _ & Hsrc & Hd & Hf).
  assert (Hout : forall p : list string,
            head p <> Some "images" -> head p <> Some "labels" ->
            forall s, s ∈ ["images"; "labels"] -> head p <> Some s).
  { intros p Hi Hl s Hs.
    repeat (apply elem_of_cons in Hs as [->|Hs]; [done|]).
    by apply elem_of_nil in Hs. }
  destruct (Converter.process_images _ _ _ w1) as [w2 [[]|e]]; cbn [fst] in *.
  - unfold write_file, modify. cbn [fst rng src_images dirs files set_files].
    split_and!; [exact Hrng|exact Hsrc|by rewrite Hd|].
    intros p Hi Hl Hy. rewrite lookup_insert_ne by done.
    rewrite Hf by (by apply Hout). reflexivity.
  - split_and!; [exact Hrng|exact Hsrc|by rewrite Hd|].
    intros p Hi Hl Hy. rewrite Hf by (by apply Hout). reflexivity.
Qed.

Lemma converter_run_frame_witness :
  let w := empty_world 0 ["a.jpg"] in
  let w' := (Converter.coco_to_yolo two_images_doc w).1 in
  rng w' = rng w
  /\ src_images w' = src_images w
  /\ dirs w' = dirs w ∪ {[ []; ["labels"]; ["images"] ]}
  /\ forall p,
       head p <> Some "images" -> head p <> Some "labels" ->
       p <> ["data.yaml"] ->
       files w' !! p = files w !! p.
Proof.
  apply (converter_run_frame two_images_doc (empty_world 0 ["a.jpg"])).
  repeat constructor; discriminate.
Defined.
